(** * yargisalzeka: the deployment script [deploy.sh]

    A shallow embedding of [deploy.sh], the release pipeline of the
    repository: prerequisite check, directory preparation, backup, image
    build, cutover, health verification, then cleanup or rollback; and of
    the rule by which the frontend build names its assets.

    The script is a sequence of shell functions run under [set -e].  It is
    embedded as a small monad over an explicit state (the part of the file
    system the script reads and writes, and the trace of the external
    commands it ran), with the lines it prints as output.  Everything the
    script cannot decide by itself (exit statuses of external commands, the
    wall clock, the installed tools) is read from a [World]. *)

From Stdlib Require Import ZArith Ascii String Lia.
From stdpp Require Import gmap strings list sorting.

Local Open Scope Z_scope.

(** ** Wall-clock time and the [date] formats *)

Module Date.

(** A reading of the wall clock as [date] breaks it down: calendar year,
    month 1..12, day of the month, hour, minute, second. *)
Record tm := Tm {
  tm_year : N;
  tm_mon : N;
  tm_mday : N;
  tm_hour : N;
  tm_min : N;
  tm_sec : N
}.

Definition digit (d : N) : ascii := ascii_of_N (48 + d).

(** The [w] low-order decimal digits of [n], most significant first,
    in front of [acc]. *)
Fixpoint digits (w : nat) (n : N) (acc : string) : string :=
  match w with
  | O => acc
  | S w' => digits w' (n / 10)%N (String (digit (n mod 10)%N) acc)
  end.

(** Number of decimal digits of [n]; the number of its bits is fuel enough. *)
Fixpoint dec_width (fuel : nat) (n : N) : nat :=
  match fuel with
  | O => 1%nat
  | S f => if (n <? 10)%N then 1%nat else S (dec_width f (n / 10)%N)
  end.

(** [%Y]: the year in decimal, four digits, more when it needs them. *)
Definition fmt_Y (y : N) (acc : string) : string :=
  if (y <? 10000)%N then digits 4 y acc
  else digits (dec_width (N.size_nat y) y) y acc.

(** [%m], [%d], [%H], [%M], [%S]: two digits. *)
Definition fmt_2 (n : N) (acc : string) : string := digits 2 n acc.

(** [date +'%Y%m%d_%H%M%S'] *)
Definition fmt_compact (t : tm) : string :=
  fmt_Y (tm_year t) (fmt_2 (tm_mon t) (fmt_2 (tm_mday t)
    (String "_" (fmt_2 (tm_hour t) (fmt_2 (tm_min t) (fmt_2 (tm_sec t) EmptyString)))))).

(** [date +'%Y-%m-%d %H:%M:%S'] *)
Definition fmt_stamp (t : tm) : string :=
  fmt_Y (tm_year t) (String "-" (fmt_2 (tm_mon t) (String "-" (fmt_2 (tm_mday t)
    (String " " (fmt_2 (tm_hour t) (String ":" (fmt_2 (tm_min t)
      (String ":" (fmt_2 (tm_sec t) EmptyString)))))))))).

(** Chronological order of two readings, most significant field first. *)
Definition lex (c1 c2 : comparison) : comparison :=
  match c1 with Eq => c2 | _ => c1 end.

Definition tm_compare (a b : tm) : comparison :=
  lex (tm_year a ?= tm_year b)%N
 (lex (tm_mon a ?= tm_mon b)%N
 (lex (tm_mday a ?= tm_mday b)%N
 (lex (tm_hour a ?= tm_hour b)%N
 (lex (tm_min a ?= tm_min b)%N
      (tm_sec a ?= tm_sec b)%N)))).

(** The readings [date] produces while the year has four digits. *)
Definition valid_tm (t : tm) : Prop :=
  (tm_year t <= 9999 /\ tm_mon t <= 12 /\ tm_mday t <= 31 /\
   tm_hour t <= 23 /\ tm_min t <= 59 /\ tm_sec t <= 60)%N.

End Date.

Import Date.

(** [BACKUP_NAME="backup_$(date +'%Y%m%d_%H%M%S')"] *)
Definition BACKUP_NAME (t : tm) : string := "backup_" +:+ fmt_compact t.

(** ** Configuration (lines 14-19) *)

(** [ENVIRONMENT=${1:-staging}]: the first argument, or [staging] when it
    is unset or empty. *)
Definition ENVIRONMENT (arg1 : option string) : string :=
  match arg1 with
  | Some (String c s) => String c s
  | _ => "staging"
  end.

Definition COMPOSE_FILE : string := "docker-compose.production.yml".
Definition ENV_FILE : string := ".env.production".
Definition BACKUP_DIR : string := "./backups".
Definition LOG_DIR : string := "./logs".

(** ** The file system the script sees *)

(** An entry of [$BACKUP_DIR]: its modification time and the two files the
    script may put into it. *)
Record Backup := MkBackup {
  b_mtime : Z;
  b_docker_ps : option string;   (* docker_ps.txt *)
  b_env : option string          (* the copy of $ENV_FILE *)
}.

(** [fs_files]: the regular files of the working directory, by name, with
    their contents.  [fs_dirs]: the directories that exist, by the path the
    script uses for them.  [fs_backups]: the entries of [$BACKUP_DIR] that
    [ls] lists, by name. *)
Record FileSys := MkFileSys {
  fs_files : gmap string string;
  fs_dirs : gset string;
  fs_backups : gmap string Backup
}.

(** ** External commands *)

Inductive Action := Build | Down | Up | Ps.

(** The commands whose exit status the shell looks at. *)
Inductive Cmd :=
  | MkdirP (path : string)          (* mkdir -p path *)
  | MkdirBackup (name : string)     (* mkdir -p "$BACKUP_DIR/$BACKUP_NAME" *)
  | DockerPsQuiet                   (* docker ps -q | grep -q . *)
  | DockerPsAll (name : string)     (* docker ps -a > .../$BACKUP_NAME/docker_ps.txt *)
  | CpEnv (name : string)           (* cp "$ENV_FILE" "$BACKUP_DIR/$BACKUP_NAME/" *)
  | Compose (file : string) (a : Action)
                                    (* docker-compose -f file build --no-cache | down | up -d | ps *)
  | Sleep10                         (* sleep 10 *)
  | Curl (url : string)             (* curl -f url > /dev/null 2>&1 *)
  | ImagePrune                      (* docker image prune -f *)
  | CdBackupDir                     (* cd "$BACKUP_DIR" *)
  | PruneOld                        (* ls -t | tail -n +6 | xargs -r rm -rf *)
  | CdBack.                         (* cd - > /dev/null *)

Global Instance Action_eq_dec : EqDecision Action.
Proof. solve_decision. Defined.
Global Instance Cmd_eq_dec : EqDecision Cmd.
Proof. solve_decision. Defined.

(** How often [c] occurs in a trace. *)
Definition occurrences (c : Cmd) (tr : list Cmd) : nat :=
  length (filter (λ c', c' = c) tr).

(** ** The world outside the script *)

(** [installed]: what [command -v] finds.  [status c k]: the exit status
    of the run of [c] that comes after [k] earlier runs of [c] (0 is
    success).  [clock k]: what [date] reads at its [k]-th call.
    [fs_clock n]: the modification time the file system stamps after [n]
    commands.  [docker_ps_out]: the output of [docker ps -a].  [collate]:
    the order on file names of the locale, which [ls] uses between entries
    of equal modification time.  [rm_with_options words d]: what a
    successful [rm -rf words] leaves of the directory [d] when one of the
    words begins with a dash, so that [rm] reads it as an option. *)
Record World := MkWorld {
  installed : string → bool;
  status : Cmd → nat → Z;
  clock : nat → tm;
  fs_clock : nat → Z;
  docker_ps_out : string;
  collate : string → string → bool;
  rm_with_options : list string → gmap string Backup → gmap string Backup
}.

(** ** The shell: state, results and sequencing *)

(** [ops]: the external commands run so far, oldest first.  [dates]: the
    number of calls of [date] so far. *)
Record State := MkState {
  fs : FileSys;
  ops : list Cmd;
  dates : nat
}.

Inductive Line :=
  | Status (stamp msg : string)     (* print_status, with its time stamp *)
  | Error (msg : string)            (* print_error *)
  | Warning (msg : string).         (* print_warning *)

(** A command list goes on ([Ok]), leaves the enclosing function
    ([Return s], the shell's [return s]) or ends the shell ([Exit c]: an
    [exit c], or a failed command under [set -e]). *)
Inductive Result (A : Type) :=
  | Ok (a : A)
  | Return (s : Z)
  | Exit (c : Z).
Arguments Ok {A} a.
Arguments Return {A} s.
Arguments Exit {A} c.

Definition Sh (A : Type) : Type := State → Result A * State * list Line.

Definition ret {A} (a : A) : Sh A := λ st, (Ok a, st, []).

Definition bind {A B} (m : Sh A) (k : A → Sh B) : Sh B := λ st,
  match m st with
  | (Ok a, st1, l1) =>
      match k a st1 with (r, st2, l2) => (r, st2, l1 ++ l2) end
  | (Return s, st1, l1) => (Return s, st1, l1)
  | (Exit c, st1, l1) => (Exit c, st1, l1)
  end.

Declare Scope sh_scope.
Delimit Scope sh_scope with sh.
Notation "x <- m ;; k" := (bind m (λ x, k))
  (at level 100, m at next level, k at level 200, right associativity) : sh_scope.
Notation "m ;; k" := (bind m (λ _, k))
  (at level 100, k at level 200, right associativity) : sh_scope.
Local Open Scope sh_scope.

Definition exit {A} (c : Z) : Sh A := λ st, (Exit c, st, []).
Definition return_ {A} (s : Z) : Sh A := λ st, (Return s, st, []).

(** A call of a shell function: its status is that of [return], or that of
    its last command, which is 0 wherever a body below runs to its end. *)
Definition call (body : Sh unit) : Sh Z := λ st,
  match body st with
  | (Ok _, st1, l) => (Ok 0, st1, l)
  | (Return s, st1, l) => (Ok s, st1, l)
  | (Exit c, st1, l) => (Exit c, st1, l)
  end.

Definition when (b : bool) (body : Sh unit) : Sh unit := if b then body else ret tt.
Definition unless (b : bool) (body : Sh unit) : Sh unit := if b then ret tt else body.

(** ** Text through a pipe: [ls], [tail] and [xargs] *)

Definition LF : ascii := "010".
Definition BACKSLASH : ascii := "092".
Definition SINGLE_QUOTE : ascii := "039".
Definition DOUBLE_QUOTE : ascii := "034".

(** What [ls] writes into a pipe: the names as they are, one per line. *)
Fixpoint ls_output (names : list string) : string :=
  match names with
  | [] => EmptyString
  | name :: rest => name +:+ String LF (ls_output rest)
  end.

(** A text without its first line. *)
Fixpoint skip_line (text : string) : string :=
  match text with
  | EmptyString => EmptyString
  | String c rest => if Ascii.eqb c LF then rest else skip_line rest
  end.

(** [tail -n +k]: the text from its [k]-th line on. *)
Definition tail_from (k : nat) (text : string) : string :=
  Nat.iter (k - 1) skip_line text.

(** [isspace]: blank, tab, line feed, vertical tab, form feed, carriage
    return. *)
Definition is_space (c : ascii) : bool :=
  existsb (Ascii.eqb c) [" "; "009"; "010"; "011"; "012"; "013"]%char.

Definition is_quote (c : ascii) : bool :=
  Ascii.eqb c SINGLE_QUOTE || Ascii.eqb c DOUBLE_QUOTE.

(** Where [xargs] is in its input: between two words, in a word (of which
    it has read [buf]), in a quoted part of a word, or behind a
    backslash. *)
Inductive XargsState :=
  | Between
  | InWord (buf : string)
  | InQuote (quote : ascii) (buf : string)
  | AfterBackslash (buf : string).

Definition snoc (buf : string) (c : ascii) : string := buf +:+ String c EmptyString.

(** The words [xargs] makes of its input: white space separates words; a
    quote protects everything up to the same quote, which must come before
    the end of the line; a backslash protects the character behind it;
    quotes and backslashes are not part of the word.  [None]: an unmatched
    quote, on which [xargs] fails. *)
Fixpoint xargs_words (text : string) (state : XargsState) : option (list string) :=
  match text with
  | EmptyString =>
      match state with
      | Between => Some []
      | InWord buf | AfterBackslash buf =>
          Some (match buf with EmptyString => [] | _ => [buf] end)
      | InQuote _ buf =>
          match buf with EmptyString => Some [] | _ => None end
      end
  | String c rest =>
      let in_word (buf : string) :=
        if is_space c then (buf ::.) <$> xargs_words rest Between
        else if Ascii.eqb c BACKSLASH then xargs_words rest (AfterBackslash buf)
        else if is_quote c then xargs_words rest (InQuote c buf)
        else xargs_words rest (InWord (snoc buf c)) in
      match state with
      | Between =>
          if is_space c then xargs_words rest Between else in_word EmptyString
      | InWord buf => in_word buf
      | InQuote quote buf =>
          if Ascii.eqb c LF then None
          else if Ascii.eqb c quote then xargs_words rest (InWord buf)
          else xargs_words rest (InQuote quote (snoc buf c))
      | AfterBackslash buf => xargs_words rest (InWord (snoc buf c))
      end
  end.

(** A word that [rm] reads as an option, not as a name. *)
Definition is_option (word : string) : bool :=
  match word with
  | String "-" (String _ _) => true
  | _ => false
  end.

(** No character of [s] means anything to [xargs]. *)
Fixpoint plain (s : string) : bool :=
  match s with
  | EmptyString => true
  | String c s' =>
      negb (is_space c) && negb (Ascii.eqb c BACKSLASH) && negb (is_quote c) && plain s'
  end.

(** A name that the pipeline of line 168 hands to [rm] as it is: one
    word for [xargs], and not an option for [rm]. *)
Definition one_word (name : string) : bool :=
  match name with
  | EmptyString => false
  | _ => plain name && negb (is_option name)
  end.

(** ** The script *)

Section Script.

Variable w : World.

(** *** What the commands do to the file system *)

(** [ls -t]: newest first; entries of equal modification time in the
    order of the locale. *)
Definition newer_first (a b : string * Backup) : Prop :=
  b_mtime b.2 < b_mtime a.2 ∨
  (b_mtime a.2 = b_mtime b.2 ∧ collate w a.1 b.1 = true).

Global Instance newer_first_dec a b : Decision (newer_first a b).
Proof. unfold newer_first. apply _. Defined.

Definition ls_t (d : gmap string Backup) : list string :=
  (merge_sort newer_first (map_to_list d)).*1.

(** [rm -rf words], run in the directory [d]: an entry named by a word is
    removed with all it holds, and a word that names no entry is passed
    over ([-f]).  A word that begins with a dash is an option to [rm];
    what [rm] does then is left to the world. *)
Definition rm_rf (words : list string) (d : gmap string Backup)
  : gmap string Backup :=
  if existsb is_option words then rm_with_options w words d
  else foldr delete d words.

(** [xargs -r rm -rf]: [rm -rf] on the words of the input; [rm] is not run
    when there is none ([-r]).  On an unmatched quote the pipeline fails,
    and, as after every command that fails ([exec] below), the file system
    is taken to be as it was. *)
Definition xargs_rm_rf (text : string) (d : gmap string Backup)
  : gmap string Backup :=
  match xargs_words text Between with
  | Some (word :: words) => rm_rf (word :: words) d
  | _ => d
  end.

(** Line 168: [ls -t | tail -n +6 | xargs -r rm -rf]. *)
Definition prune_old (d : gmap string Backup) : gmap string Backup :=
  xargs_rm_rf (tail_from 6 (ls_output (ls_t d))) d.

(** A file written into a backup; the directory is touched when the file
    is new. *)
Definition put_docker_ps (t : Z) (out : string) (b : Backup) : Backup :=
  MkBackup (match b_docker_ps b with Some _ => b_mtime b | None => t end)
           (Some out) (b_env b).

Definition put_env (t : Z) (content : string) (b : Backup) : Backup :=
  MkBackup (match b_env b with Some _ => b_mtime b | None => t end)
           (b_docker_ps b) (Some content).

(** The effect of a successful run of [c], the [n]-th command of the run.
    Of the parents that [mkdir -p] makes, only [$BACKUP_DIR] is recorded:
    the script tests no other. *)
Definition effect (n : nat) (c : Cmd) (f : FileSys) : FileSys :=
  match c with
  | MkdirP p => MkFileSys (fs_files f) ({[p]} ∪ fs_dirs f) (fs_backups f)
  | MkdirBackup name =>
      MkFileSys (fs_files f) ({[BACKUP_DIR]} ∪ fs_dirs f)
        (match fs_backups f !! name with
         | Some _ => fs_backups f
         | None => <[name := MkBackup (fs_clock w n) None None]> (fs_backups f)
         end)
  | DockerPsAll name =>
      MkFileSys (fs_files f) (fs_dirs f)
        (alter (put_docker_ps (fs_clock w n) (docker_ps_out w)) name (fs_backups f))
  | CpEnv name =>
      match fs_files f !! ENV_FILE with
      | Some content =>
          MkFileSys (fs_files f) (fs_dirs f)
            (alter (put_env (fs_clock w n) content) name (fs_backups f))
      | None => f
      end
  | PruneOld =>
      MkFileSys (fs_files f) (fs_dirs f) (prune_old (fs_backups f))
  | _ => f
  end.

(** *** Primitive steps *)

(** [echo] and [date] are taken to succeed; every other command gets its
    exit status from the world. *)

(** Runs [c] and yields its exit status; the file system changes when the
    command succeeds. *)
Definition exec (c : Cmd) : Sh Z := λ st,
  let s := status w c (occurrences c (ops st)) in
  (Ok s,
   MkState (if s =? 0 then effect (length (ops st)) c (fs st) else fs st)
           (ops st ++ [c]) (dates st),
   []).

(** A simple command under [set -e]: a failure ends the shell with the
    status of the command. *)
Definition simple (c : Cmd) : Sh unit :=
  s <- exec c ;; if s =? 0 then ret tt else exit s.

(** A command as the condition of an [if]: its failure is the answer. *)
Definition cond (c : Cmd) : Sh bool :=
  s <- exec c ;; ret (s =? 0).

(** [command -v tool &> /dev/null] *)
Definition command_v (tool : string) : Sh bool := ret (installed w tool).

(** [[ -f path ]] and [[ -d path ]] *)
Definition test_f (path : string) : Sh bool := λ st,
  (Ok (bool_decide (is_Some (fs_files (fs st) !! path))), st, []).

Definition test_d (path : string) : Sh bool := λ st,
  (Ok (bool_decide (path ∈ fs_dirs (fs st))), st, []).

(** [$(date +FORMAT)] *)
Definition date (format : tm → string) : Sh string := λ st,
  (Ok (format (clock w (dates st))), MkState (fs st) (ops st) (S (dates st)), []).

Definition echo (l : Line) : Sh unit := λ st, (Ok tt, st, [l]).

(** Lines 22-32. *)
Definition print_status (msg : string) : Sh unit :=
  stamp <- date fmt_stamp ;; echo (Status stamp msg).

Definition print_error (msg : string) : Sh unit := echo (Error msg).

Definition print_warning (msg : string) : Sh unit := echo (Warning msg).

(** *** Lines 35-63 *)
Definition check_prerequisites : Sh unit :=
  print_status "Checking prerequisites..." ;;
  has_docker <- command_v "docker" ;;
  unless has_docker (print_error "Docker is not installed" ;; exit 1) ;;
  has_compose <- command_v "docker-compose" ;;
  unless has_compose (print_error "Docker Compose is not installed" ;; exit 1) ;;
  has_env <- test_f ENV_FILE ;;
  unless has_env
    (print_error ("Environment file " +:+ ENV_FILE +:+ " not found") ;; exit 1) ;;
  has_yml <- test_f COMPOSE_FILE ;;
  unless has_yml
    (print_error ("Docker Compose file " +:+ COMPOSE_FILE +:+ " not found") ;; exit 1) ;;
  print_status "Prerequisites check passed".

(** *** Lines 66-76 *)
Definition create_directories : Sh unit :=
  print_status "Creating necessary directories..." ;;
  simple (MkdirP BACKUP_DIR) ;;
  simple (MkdirP (LOG_DIR +:+ "/nginx")) ;;
  simple (MkdirP (LOG_DIR +:+ "/main-api")) ;;
  simple (MkdirP (LOG_DIR +:+ "/scraper-api")) ;;
  simple (MkdirP "./ssl") ;;
  print_status "Directories created".

(** *** Lines 79-98 *)
Definition backup_current : Sh unit :=
  print_status "Creating backup of current deployment..." ;;
  stamp <- date fmt_compact ;;
  let name := "backup_" +:+ stamp in
  simple (MkdirBackup name) ;;
  running <- cond DockerPsQuiet ;;
  when running
    (simple (DockerPsAll name) ;;
     print_status "Docker container list backed up") ;;
  has_env <- test_f ENV_FILE ;;
  when has_env
    (simple (CpEnv name) ;;
     print_status "Environment file backed up") ;;
  print_status ("Backup completed: " +:+ name).

(** *** Lines 101-107 *)
Definition build_images : Sh unit :=
  print_status "Building Docker images..." ;;
  simple (Compose COMPOSE_FILE Build) ;;
  print_status "Docker images built successfully".

(** *** Lines 110-126 *)
Definition deploy_services : Sh unit :=
  print_status "Deploying services..." ;;
  print_status "Stopping existing containers..." ;;
  simple (Compose COMPOSE_FILE Down) ;;
  print_status "Starting new containers..." ;;
  simple (Compose COMPOSE_FILE Up) ;;
  print_status "Waiting for services to be ready..." ;;
  simple Sleep10 ;;
  print_status "Services deployed".

(** *** Lines 129-157 *)
Definition MAIN_API_URL : string := "http://localhost:8000/health/ready".
Definition SCRAPER_API_URL : string := "http://localhost:8001/health".
Definition FRONTEND_URL : string := "http://localhost/health".

Definition health_check : Sh unit :=
  print_status "Running health checks..." ;;
  main_ok <- cond (Curl MAIN_API_URL) ;;
  (if main_ok then print_status "Main API is healthy"
   else print_error "Main API health check failed" ;; return_ 1) ;;
  scraper_ok <- cond (Curl SCRAPER_API_URL) ;;
  (if scraper_ok then print_status "Scraper API is healthy"
   else print_error "Scraper API health check failed" ;; return_ 1) ;;
  frontend_ok <- cond (Curl FRONTEND_URL) ;;
  (if frontend_ok then print_status "Frontend is healthy"
   else print_error "Frontend health check failed" ;; return_ 1) ;;
  print_status "All health checks passed".

(** *** Lines 160-173 *)
Definition cleanup : Sh unit :=
  print_status "Cleaning up old images..." ;;
  simple ImagePrune ;;
  is_dir <- test_d BACKUP_DIR ;;
  when is_dir
    (simple CdBackupDir ;;
     simple PruneOld ;;
     simple CdBack) ;;
  print_status "Cleanup completed".

(** *** Lines 176-200 *)
Definition main (arg1 : option string) : Sh unit :=
  print_status ("Starting deployment for environment: " +:+ ENVIRONMENT arg1) ;;
  check_prerequisites ;;
  create_directories ;;
  backup_current ;;
  build_images ;;
  deploy_services ;;
  health <- call health_check ;;
  (if health =? 0 then
     print_status "Deployment completed successfully!" ;;
     cleanup
   else
     print_error "Deployment failed! Rolling back..." ;;
     simple (Compose COMPOSE_FILE Down) ;;
     exit 1) ;;
  print_status "Running containers:" ;;
  simple (Compose COMPOSE_FILE Ps) ;;
  print_status ("Deployment logs available at: " +:+ LOG_DIR).

(** Line 203: the script ends with the call of [main], whose status is the
    exit code of the process. *)
Definition script (arg1 : option string) (st : State) : Z * State * list Line :=
  match main arg1 st with
  | (Ok _, st', out) => (0, st', out)
  | (Return s, st', out) => (s, st', out)
  | (Exit c, st', out) => (c, st', out)
  end.

End Script.

(** The state in which the script starts. *)
Definition start (f : FileSys) : State := MkState f [] 0.

Definition exit_code (r : Z * State * list Line) : Z := r.1.1.
Definition final (r : Z * State * list Line) : State := r.1.2.
Definition output (r : Z * State * list Line) : list Line := r.2.

(** ** Vocabulary of the statements *)

(** *** Health verification *)

(** The three checks of [health_check], in its order: the name the script
    prints and the URL it probes. *)
Definition CHECKS : list (string * string) :=
  [("Main API", MAIN_API_URL);
   ("Scraper API", SCRAPER_API_URL);
   ("Frontend", FRONTEND_URL)].

(** The answer of the service at [url] to a probe made in state [st]. *)
Definition healthy (w : World) (st : State) (url : string) : bool :=
  status w (Curl url) (occurrences (Curl url) (ops st)) =? 0.

(** The checks up to and including the first unhealthy one. *)
Fixpoint probed (h : string → bool) (cs : list (string * string))
  : list (string * string) :=
  match cs with
  | [] => []
  | c :: cs' => c :: (if h c.2 then probed h cs' else [])
  end.

Definition failure_line (c : string * string) : Line :=
  Error (c.1 +:+ " health check failed").

Definition is_error (l : Line) : bool :=
  match l with Error _ => true | _ => false end.

(** The messages printed, without severity and time stamp. *)
Definition message (l : Line) : string :=
  match l with Status _ m => m | Error m => m | Warning m => m end.

Definition said (msg : string) (out : list Line) : bool :=
  existsb (λ l, String.eqb (message l) msg) out.

(** *** The parts of [main] *)

(** Lines 177-183: everything before the health check. *)
Definition until_cutover (w : World) (arg1 : option string) : Sh unit :=
  print_status w ("Starting deployment for environment: " +:+ ENVIRONMENT arg1) ;;
  check_prerequisites w ;;
  create_directories w ;;
  backup_current w ;;
  build_images w ;;
  deploy_services w.

(** Lines 190-192. *)
Definition rollback (w : World) : Sh unit :=
  print_error "Deployment failed! Rolling back..." ;;
  simple w (Compose COMPOSE_FILE Down) ;;
  exit 1.

(** Lines 196-199. *)
Definition report (w : World) : Sh unit :=
  print_status w "Running containers:" ;;
  simple w (Compose COMPOSE_FILE Ps) ;;
  print_status w ("Deployment logs available at: " +:+ LOG_DIR).

(** Lines 186-199: the health check and what follows it. *)
Definition verify_and_finish (w : World) : Sh unit :=
  health <- call (health_check w) ;;
  (if health =? 0 then
     print_status w "Deployment completed successfully!" ;;
     cleanup w
   else rollback w) ;;
  report w.

(** Everything in [main] after its first line. *)
Definition pipeline (w : World) : Sh unit :=
  check_prerequisites w ;;
  create_directories w ;;
  backup_current w ;;
  build_images w ;;
  deploy_services w ;;
  verify_and_finish w.

(** The commands that change the file system or the stack. *)
Definition mutating (c : Cmd) : bool :=
  match c with
  | MkdirP _ | MkdirBackup _ | DockerPsAll _ | CpEnv _ | ImagePrune | PruneOld => true
  | Compose _ a => match a with Ps => false | _ => true end
  | _ => false
  end.

(** A missing prerequisite: a tool or one of the two files. *)
Definition prerequisite_missing (w : World) (st : State) : Prop :=
  installed w "docker" = false ∨
  installed w "docker-compose" = false ∨
  fs_files (fs st) !! ENV_FILE = None ∨
  fs_files (fs st) !! COMPOSE_FILE = None.

(** Every entry of the directory has a name that is one word. *)
Definition plain_names (d : gmap string Backup) : Prop :=
  ∀ k, is_Some (d !! k) → one_word k = true.

Global Instance prerequisite_missing_dec w st : Decision (prerequisite_missing w st).
Proof. unfold prerequisite_missing. apply _. Defined.

(** The order of the locale is total and transitive. *)
Definition collation (w : World) : Prop :=
  (∀ a b, collate w a b = true ∨ collate w b a = true) ∧
  (∀ a b c, collate w a b = true → collate w b c = true → collate w a c = true).

(** *** Terminal states *)

(** The terminal states of the spec's section 4.9, which the script does
    not name, read off the output of a run: a run is [Succeeded] once it
    has announced the success of the deployment, [Aborted] when it ended
    before the build began (in the checker, the preparer or the backup),
    and [RolledBack] when it ended in the build, the cutover or the health
    check. *)
Inductive Terminal := Succeeded | Aborted | RolledBack.

Definition terminal (out : list Line) : Terminal :=
  if said "Deployment completed successfully!" out then Succeeded
  else if said "Building Docker images..." out then RolledBack
  else Aborted.

(** *** The spec's sentences that the script does not follow, as stated *)

(** The id of the backup that a [backup_current] started in [st] makes:
    the name made of the reading of [date] in line 82. *)
Definition backup_id (w : World) (st : State) : string :=
  BACKUP_NAME (clock w (S (dates st))).

(** Backup ids: of two backups, the one made later, that is whose
    [backup_current] starts after more calls of [date], does not have the
    smaller id. *)
Definition creation_order_claim : Prop :=
  ∀ (w : World) (st1 st2 : State),
    (dates st1 < dates st2)%nat →
    String.compare (backup_id w st1) (backup_id w st2) ≠ Gt.


(** Eager verification: every check is probed, and every unhealthy
    service is named in an error line. *)
Definition eager_claim : Prop :=
  ∀ (w : World) (f : FileSys) (c : string * string),
    c ∈ CHECKS →
    let r := call (health_check w) (start f) in
    Curl c.2 ∈ ops r.1.2 ∧
    (healthy w (start f) c.2 = false → failure_line c ∈ r.2).

(** Rollback: after a failed health check the stack is torn down once and
    the exit code is 1, whatever the teardown does. *)
Definition rollback_claim : Prop :=
  ∀ (w : World) (arg1 : option string) (st st1 st2 : State)
    (out1 out2 : list Line) (health : Z),
    until_cutover w arg1 st = (Ok tt, st1, out1) →
    call (health_check w) st1 = (Ok health, st2, out2) →
    health ≠ 0 →
    let r := script w arg1 st in
    ops (final r) = ops st2 ++ [Compose COMPOSE_FILE Down] ∧ exit_code r = 1.

(** Cleanup: once the health check has passed, the exit code is 0 whatever
    the cleanup does (the report after it succeeding). *)
Definition cleanup_claim : Prop :=
  ∀ (w : World) (arg1 : option string) (st st1 st2 : State)
    (out1 out2 : list Line),
    until_cutover w arg1 st = (Ok tt, st1, out1) →
    call (health_check w) st1 = (Ok 0, st2, out2) →
    (∀ k, status w (Compose COMPOSE_FILE Ps) k = 0) →
    exit_code (script w arg1 st) = 0.

(** Exit codes: 0 exactly for [Succeeded], 1 for [Aborted] and
    [RolledBack]. *)
Definition exit_code_claim : Prop :=
  ∀ (w : World) (arg1 : option string) (st : State),
    let r := script w arg1 st in
    (exit_code r = 0 ↔ terminal (output r) = Succeeded) ∧
    (terminal (output r) ≠ Succeeded → exit_code r = 1).

(** *** Cleanup and exit codes *)

(** The commands of [cleanup] that run under [set -e]. *)
Definition CLEANUP_COMMANDS : list Cmd := [ImagePrune; CdBackupDir; PruneOld; CdBack].

(** Every command of a [cleanup] that starts in [st] succeeds. *)
Definition cleanup_succeeds (w : World) (st : State) : Prop :=
  status w ImagePrune (occurrences ImagePrune (ops st)) = 0 ∧
  (BACKUP_DIR ∈ fs_dirs (fs st) →
   status w CdBackupDir (occurrences CdBackupDir (ops st)) = 0 ∧
   status w PruneOld (occurrences PruneOld (ops st)) = 0 ∧
   status w CdBack (occurrences CdBack (ops st)) = 0).

(** A command list ends the shell only with a non-zero code, which is 1 or
    the status of the command it ran last, and it never executes a
    [return] outside a function. *)
Definition exits_well (w : World) {A} (m : Sh A) : Prop :=
  ∀ st,
    match m st with
    | (Ok _, _, _) => True
    | (Return _, _, _) => False
    | (Exit c, st', _) =>
        c ≠ 0 ∧
        (c = 1 ∨
         ∃ tr cmd, ops st' = tr ++ [cmd] ∧ c = status w cmd (occurrences cmd tr))
    end.

(** The commands the script runs as the condition of an [if]: their
    failure is an answer, not an error. *)
Definition is_condition (c : Cmd) : bool :=
  match c with
  | DockerPsQuiet | Curl _ => true
  | _ => false
  end.

(** Each command of [new], run in this order after [before], succeeded,
    the conditions apart. *)
Fixpoint passed (w : World) (before new : list Cmd) : Prop :=
  match new with
  | [] => True
  | c :: rest =>
      (is_condition c = false → status w c (occurrences c before) = 0) ∧
      passed w (before ++ [c]) rest
  end.

(** The discipline of [set -e].  A command list only adds to the trace.
    While it goes on, every command it ran outside a condition succeeded.
    When it ends the shell, either the command it ran last, outside a
    condition, failed, all before it having succeeded, and the code is the
    status of that command; or the code is 1 by an [exit 1] of the script
    ([may_exit]), no command having failed. *)
Definition under_set_e (w : World) (may_exit : bool) {A} (m : Sh A) : Prop :=
  ∀ st,
    match m st with
    | (r, st', _) =>
        ∃ new, ops st' = ops st ++ new ∧
          match r with
          | Exit c =>
              (may_exit = true ∧ c = 1 ∧ passed w (ops st) new) ∨
              (∃ tr cmd, new = tr ++ [cmd] ∧ passed w (ops st) tr ∧
                 is_condition cmd = false ∧
                 c = status w cmd (occurrences cmd (ops st ++ tr)) ∧ c ≠ 0)
          | _ => passed w (ops st) new
          end
    end.

(** Lines 180-183: the stages between the prerequisite check and the
    health check. *)
Definition stages (w : World) : Sh unit :=
  create_directories w ;;
  backup_current w ;;
  build_images w ;;
  deploy_services w.

(** Lines 187-188 and 196-199: the rest of a run whose health check has
    passed. *)
Definition finish (w : World) : Sh unit :=
  (print_status w "Deployment completed successfully!" ;;
   cleanup w) ;;
  report w.

(** *** The stages, one by one *)

(** The directories of lines 69-73. *)
Definition REQUIRED_DIRS : list string :=
  [BACKUP_DIR; LOG_DIR +:+ "/nginx"; LOG_DIR +:+ "/main-api";
   LOG_DIR +:+ "/scraper-api"; "./ssl"].

(** The commands of a list up to and including the first that fails. *)
Fixpoint attempted (ok : Cmd → bool) (cs : list Cmd) : list Cmd :=
  match cs with
  | [] => []
  | c :: cs' => c :: (if ok c then attempted ok cs' else [])
  end.

(** The next run of [c] after the trace of [st] succeeds. *)
Definition succeeds (w : World) (st : State) (c : Cmd) : bool :=
  status w c (occurrences c (ops st)) =? 0.

(** How a list of commands under [set -e] ends: with the status of the
    first command that fails, if any. *)
Definition outcome (w : World) (st : State) (cs : list Cmd) : Result unit :=
  match List.find (λ c, negb (succeeds w st c)) cs with
  | Some c => Exit (status w c (occurrences c (ops st)))
  | None => Ok tt
  end.

(** The commands of [deploy_services]. *)
Definition CUTOVER_COMMANDS : list Cmd :=
  [Compose COMPOSE_FILE Down; Compose COMPOSE_FILE Up; Sleep10].

(** The commands of [create_directories]. *)
Definition MKDIR_COMMANDS : list Cmd := MkdirP <$> REQUIRED_DIRS.

(** The error of the prerequisite check: that of the first prerequisite
    that is missing, in the order of the checks. *)
Definition first_missing (w : World) (st : State) : option string :=
  if negb (installed w "docker") then Some "Docker is not installed"
  else if negb (installed w "docker-compose") then Some "Docker Compose is not installed"
  else if negb (bool_decide (is_Some (fs_files (fs st) !! ENV_FILE)))
       then Some ("Environment file " +:+ ENV_FILE +:+ " not found")
  else if negb (bool_decide (is_Some (fs_files (fs st) !! COMPOSE_FILE)))
       then Some ("Docker Compose file " +:+ COMPOSE_FILE +:+ " not found")
  else None.

(** *** What a run leaves alone *)

(** What no step of the script undoes: the trace grows, the regular files
    stay as they are, directories are only added, and backups disappear
    only in a run of the prune pipeline. *)
Definition grows (st st' : State) : Prop :=
  ops st `prefix_of` ops st' ∧
  fs_files (fs st') = fs_files (fs st) ∧
  fs_dirs (fs st) ⊆ fs_dirs (fs st') ∧
  (occurrences PruneOld (ops st') = occurrences PruneOld (ops st) →
   dom (fs_backups (fs st)) ⊆ dom (fs_backups (fs st'))).

Definition keeps {A} (m : Sh A) : Prop := ∀ st, grows st (m st).1.2.

(** [m] does not run [c]. *)
Definition avoids (c : Cmd) {A} (m : Sh A) : Prop :=
  ∀ st, occurrences c (ops (m st).1.2) = occurrences c (ops st).

(** [m] prints no error line unless it ends the shell or the function. *)
Definition quiet {A} (m : Sh A) : Prop :=
  ∀ st, match m st with
        | (Ok _, _, out) => List.filter is_error out = []
        | _ => True
        end.

(** Lines 177-181: everything before the build. *)
Definition until_build (w : World) (arg1 : option string) : Sh unit :=
  print_status w ("Starting deployment for environment: " +:+ ENVIRONMENT arg1) ;;
  check_prerequisites w ;;
  create_directories w ;;
  backup_current w.

(** Lines 183-199: everything after the build. *)
Definition after_build (w : World) : Sh unit :=
  deploy_services w ;;
  verify_and_finish w.

(** Every prerequisite is in place. *)
Definition prerequisites_met (w : World) (st : State) : Prop :=
  installed w "docker" = true ∧
  installed w "docker-compose" = true ∧
  is_Some (fs_files (fs st) !! ENV_FILE) ∧
  is_Some (fs_files (fs st) !! COMPOSE_FILE).

(** The commands of a run in which everything succeeds, in their order. *)
Definition SUCCESSFUL_RUN (name : string) : list Cmd :=
  [MkdirP BACKUP_DIR; MkdirP (LOG_DIR +:+ "/nginx"); MkdirP (LOG_DIR +:+ "/main-api");
   MkdirP (LOG_DIR +:+ "/scraper-api"); MkdirP "./ssl";
   MkdirBackup name; DockerPsQuiet; DockerPsAll name; CpEnv name;
   Compose COMPOSE_FILE Build;
   Compose COMPOSE_FILE Down; Compose COMPOSE_FILE Up; Sleep10;
   Curl MAIN_API_URL; Curl SCRAPER_API_URL; Curl FRONTEND_URL;
   ImagePrune; CdBackupDir; PruneOld; CdBack;
   Compose COMPOSE_FILE Ps].

(** ** Sample worlds *)

Definition noon : tm := Tm 2024 3 7 12 0 0.

(** Every tool is installed, the locale is C, the commands exit as
    [statuses] says, and [rm] removes nothing when it is handed an
    option. *)
Definition world_with (statuses : Cmd → nat → Z) : World :=
  MkWorld (λ _, true) statuses (λ _, noon) (λ n, 1000 + Z.of_nat n)
          "CONTAINER ID   IMAGE" String.leb (λ _ d, d).

(** Every command succeeds. *)
Definition calm : World := world_with (λ _ _, 0).

(** The run of [c] that comes after [k] earlier ones exits with [s]. *)
Definition failing (c : Cmd) (k : nat) (s : Z) : World :=
  world_with (λ c' k', if decide (c' = c ∧ k' = k) then s else 0).

(** The services at [urls] answer with an HTTP error ([curl -f] exits
    with 22). *)
Definition unhealthy (urls : list string) : World :=
  world_with (λ c _,
    match c with
    | Curl u => if decide (u ∈ urls) then 22 else 0
    | _ => 0
    end).

(** The main API is unhealthy, and the teardown of the rollback (the
    second [down] of the run) exits with 2. *)
Definition failed_teardown : World :=
  world_with (λ c k,
    match c with
    | Curl u => if decide (u = MAIN_API_URL) then 22 else 0
    | Compose _ Down => if decide (k = 1%nat) then 2 else 0
    | _ => 0
    end).

(** As [calm], in the night in which daylight saving time ends: [date]
    reads the local clock (line 82 has no [-u]), which is set back from
    03:00 to 02:00.  The first five readings are made at 02:59:59, before
    the change, the later ones at 02:00:00, the second after. *)
Definition fall_back : World :=
  MkWorld (λ _, true) (λ _ _, 0)
          (λ k, if (k <? 5)%nat then Tm 2024 10 27 2 59 59 else Tm 2024 10 27 2 0 0)
          (λ n, 1000 + Z.of_nat n)
          "CONTAINER ID   IMAGE" String.leb (λ _ d, d).

(** As [calm], without [docker-compose]. *)
Definition no_compose : World :=
  MkWorld (λ tool, negb (String.eqb tool "docker-compose")) (λ _ _, 0)
          (λ _, noon) (λ n, 1000 + Z.of_nat n)
          "CONTAINER ID   IMAGE" String.leb (λ _ d, d).

Definition old_backup (mtime : Z) : Backup := MkBackup mtime None (Some "KEY=old").

Definition seven_backups : gmap string Backup :=
  list_to_map
    [("backup_20240301_120000", old_backup 1); ("backup_20240302_120000", old_backup 2);
     ("backup_20240303_120000", old_backup 3); ("backup_20240304_120000", old_backup 4);
     ("backup_20240305_120000", old_backup 5); ("backup_20240306_120000", old_backup 6);
     ("backup_20240307_110000", old_backup 7)].

(** The same seven backups after the oldest one has been touched. *)
Definition touched_backups : gmap string Backup :=
  <["backup_20240301_120000" := old_backup 9]> seven_backups.

(** Six backups and an older entry whose name holds a blank. *)
Definition spaced_backups : gmap string Backup :=
  <["old backup" := old_backup 0]> (delete "backup_20240301_120000" seven_backups).

(** A checkout with both files, before any run. *)
Definition site : FileSys :=
  MkFileSys (<[ENV_FILE := "KEY=value"]> (<[COMPOSE_FILE := "services:"]> ∅)) ∅ ∅.

(** The same after earlier runs: the backup directory holds seven backups. *)
Definition used_site : FileSys :=
  MkFileSys (<[ENV_FILE := "KEY=value"]> (<[COMPOSE_FILE := "services:"]> ∅))
            {[BACKUP_DIR]} seven_backups.

(** A checkout whose environment file is gone. *)
Definition site_without_env : FileSys :=
  MkFileSys (<[COMPOSE_FILE := "services:"]> ∅) ∅ ∅.

(** * The asset names of the frontend build ([vite.config.js]) *)

Module Vite.

(** [s.split('.')]: the pieces of [s] between its dots; never empty. *)
Fixpoint split_dot (s : string) : list string :=
  match s with
  | EmptyString => [EmptyString]
  | String c s' =>
      if Ascii.eqb c "." then EmptyString :: split_dot s'
      else match split_dot s' with
           | piece :: pieces => String c piece :: pieces
           | [] => [String c EmptyString]
           end
  end.

(** The letter case that the flag [i] of a regular expression ignores. *)
Definition lower_ascii (c : ascii) : ascii :=
  let n := nat_of_ascii c in
  if (65 <=? n)%nat && (n <=? 90)%nat then ascii_of_nat (n + 32) else c.

Fixpoint lower (s : string) : string :=
  match s with
  | EmptyString => EmptyString
  | String c s' => String (lower_ascii c) (lower s')
  end.

(** [s] ends with [suffix]. *)
Fixpoint ends_with (suffix s : string) : bool :=
  String.eqb s suffix ||
  match s with
  | EmptyString => false
  | String _ s' => ends_with suffix s'
  end.

(** [/\.(e1|e2|...)$/i.test(name)] *)
Definition test_extension (exts : list string) (name : string) : bool :=
  existsb (λ e, ends_with (String "." e) (lower name)) exts.

(** [/\.(png|jpe?g|svg|gif|tiff|bmp|ico)$/i] *)
Definition IMAGE_EXTENSIONS : list string :=
  ["png"; "jpg"; "jpeg"; "svg"; "gif"; "tiff"; "bmp"; "ico"].

(** [/\.(woff2?|eot|ttf|otf)$/i] *)
Definition FONT_EXTENSIONS : list string :=
  ["woff"; "woff2"; "eot"; "ttf"; "otf"].

(** [assetFileNames], lines 59-72, on an asset that has a name. *)
Definition assetFileNames (name : string) : string :=
  let info := split_dot name in
  let extType := List.last info EmptyString in
  if test_extension IMAGE_EXTENSIONS name then "assets/images/[name]-[hash][extname]"
  else if test_extension FONT_EXTENSIONS name then "assets/fonts/[name]-[hash][extname]"
  else if String.eqb extType "css" then "assets/css/[name]-[hash][extname]"
  else "assets/[name]-[hash][extname]".

End Vite.

Import Vite.

(** The four answers of [assetFileNames]. *)
Definition IMAGES : string := "assets/images/[name]-[hash][extname]".
Definition FONTS : string := "assets/fonts/[name]-[hash][extname]".
Definition CSS : string := "assets/css/[name]-[hash][extname]".
Definition OTHER : string := "assets/[name]-[hash][extname]".

(** The last character of a string. *)
Fixpoint last_char (s : string) : option ascii :=
  match s with
  | EmptyString => None
  | String c EmptyString => Some c
  | String _ s' => last_char s'
  end.

(** * Properties *)

(** ** Backup names and time *)

Section NameOrder.

Lemma digit_compare (d1 d2 : N) :
  (d1 < 10)%N → (d2 < 10)%N →
  Ascii.compare (digit d1) (digit d2) = (d1 ?= d2)%N.
Proof.
  intros H1 H2. unfold Ascii.compare, digit.
  rewrite !N_ascii_embedding by lia.
  destruct (N.compare_spec (48 + d1) (48 + d2));
    destruct (N.compare_spec d1 d2); try reflexivity; lia.
Qed.

Lemma compare_String c1 c2 s1 s2 :
  String.compare (String c1 s1) (String c2 s2) =
  lex (Ascii.compare c1 c2) (String.compare s1 s2).
Proof. simpl. unfold lex. by destruct (Ascii.compare c1 c2). Qed.

Lemma compare_same_head c s t :
  String.compare (String c s) (String c t) = String.compare s t.
Proof.
  rewrite compare_String. unfold Ascii.compare. by rewrite N.compare_refl.
Qed.

Lemma append_String c s t : String c s +:+ t = String c (s +:+ t).
Proof. reflexivity. Qed.

Lemma append_empty t : EmptyString +:+ t = t.
Proof. reflexivity. Qed.

(** Comparing two numbers is comparing their quotients by ten, then their
    last digits. *)
Lemma lex_div_mod (a b : N) (c : comparison) :
  lex (a / 10 ?= b / 10)%N (lex (a mod 10 ?= b mod 10)%N c) = lex (a ?= b)%N c.
Proof.
  pose proof (N.div_mod a 10 ltac:(lia)) as Ha.
  pose proof (N.div_mod b 10 ltac:(lia)) as Hb.
  pose proof (N.mod_lt a 10 ltac:(lia)) as Ha'.
  pose proof (N.mod_lt b 10 ltac:(lia)) as Hb'.
  set (qa := (a / 10)%N) in *. set (ra := (a mod 10)%N) in *.
  set (qb := (b / 10)%N) in *. set (rb := (b mod 10)%N) in *.
  clearbody qa ra qb rb. unfold lex.
  destruct (N.compare_spec qa qb); destruct (N.compare_spec ra rb);
    destruct (N.compare_spec a b); try reflexivity; exfalso; lia.
Qed.

(** Numbers that fit in [w] digits compare as their [w]-digit numerals. *)
Lemma digits_compare (w : nat) : ∀ (a b : N) (s t : string),
  (a < 10 ^ N.of_nat w)%N → (b < 10 ^ N.of_nat w)%N →
  String.compare (digits w a s) (digits w b t) =
  lex (a ?= b)%N (String.compare s t).
Proof.
  induction w as [|w IH]; intros a b s t Ha Hb.
  - simpl in *. assert (a = 0%N) by lia. assert (b = 0%N) by lia. by subst.
  - rewrite Nat2N.inj_succ, N.pow_succ_r' in Ha, Hb. simpl.
    rewrite IH by (apply N.Div0.div_lt_upper_bound; lia).
    rewrite compare_String, digit_compare by (apply N.mod_lt; lia).
    apply lex_div_mod.
Qed.

Lemma fmt_2_compare (a b : N) (s t : string) :
  (a < 100)%N → (b < 100)%N →
  String.compare (fmt_2 a s) (fmt_2 b t) = lex (a ?= b)%N (String.compare s t).
Proof. intros. by apply (digits_compare 2). Qed.

Lemma fmt_Y_compare (a b : N) (s t : string) :
  (a <= 9999)%N → (b <= 9999)%N →
  String.compare (fmt_Y a s) (fmt_Y b t) = lex (a ?= b)%N (String.compare s t).
Proof.
  intros Ha Hb. unfold fmt_Y.
  destruct (N.ltb_spec a 10000); [|lia]. destruct (N.ltb_spec b 10000); [|lia].
  by apply (digits_compare 4).
Qed.

(** C8 (as the script has it). The id of a backup is made of a reading
    of the local wall clock.  For any two readings with a year of at most
    9999, the ids made of them compare, as strings, the way the readings
    compare: the later reading has the greater id, and the same second the
    same id. *)
Theorem backup_name_order (a b : tm) :
  valid_tm a → valid_tm b →
  String.compare (BACKUP_NAME a) (BACKUP_NAME b) = tm_compare a b.
Proof.
  intros (Hy1 & Hm1 & Hd1 & Hh1 & Hi1 & Hs1) (Hy2 & Hm2 & Hd2 & Hh2 & Hi2 & Hs2).
  unfold BACKUP_NAME, fmt_compact, tm_compare.
  rewrite !append_String, !append_empty, !compare_same_head.
  rewrite fmt_Y_compare by done.
  rewrite !fmt_2_compare by lia.
  rewrite compare_same_head.
  rewrite !fmt_2_compare by lia.
  simpl. by destruct (tm_sec a ?= tm_sec b)%N.
Qed.

Lemma backup_name_order_witness :
  valid_tm noon ∧ valid_tm (Tm 2024 11 30 0 0 0) ∧
  String.compare (BACKUP_NAME noon) (BACKUP_NAME (Tm 2024 11 30 0 0 0)) = Lt.
Proof.
  assert (H1 : valid_tm noon) by (unfold valid_tm; simpl; lia).
  assert (H2 : valid_tm (Tm 2024 11 30 0 0 0)) by (unfold valid_tm; simpl; lia).
  split; [exact H1|]. split; [exact H2|].
  rewrite (backup_name_order _ _ H1 H2). reflexivity.
Defined.

(** Beyond the year 9999 the ids no longer follow the readings: [%Y]
    grows a digit. *)
Example year_10000_breaks_name_order :
  tm_compare (Tm 9999 12 31 23 59 59) (Tm 10000 1 1 0 0 0) = Lt ∧
  String.compare (BACKUP_NAME (Tm 9999 12 31 23 59 59))
                 (BACKUP_NAME (Tm 10000 1 1 0 0 0)) = Gt.
Proof. split; vm_compute; reflexivity. Qed.

End NameOrder.

(** ** Running the shell *)

Lemma occurrences_snoc_ne (c c' : Cmd) (tr : list Cmd) :
  c' ≠ c → occurrences c (tr ++ [c']) = occurrences c tr.
Proof.
  intros Hne. unfold occurrences. rewrite filter_app, length_app.
  rewrite filter_cons_False by done. simpl. lia.
Qed.

(** Evaluates the shell on a state whose record is explicit, up to the next
    exit status it depends on. *)
Ltac sh_eval :=
  cbv beta iota zeta delta
      [bind simple cond exec ret exit return_ call print_status print_error
       print_warning date echo when unless test_f test_d command_v effect
       fs ops dates fs_files fs_dirs fs_backups fst snd];
  rewrite ?occurrences_snoc_ne by (by intros [=]).

Ltac in_list := by repeat first [apply list_elem_of_here | apply list_elem_of_further].

Lemma bind_assoc {A B C} (m : Sh A) (k : A → Sh B) (k' : B → Sh C) (st : State) :
  bind (bind m k) k' st = bind m (λ x, bind (k x) k') st.
Proof.
  unfold bind. destruct (m st) as [[[a|s|c] st1] l1]; [|done..].
  destruct (k a st1) as [[[b|s|c] st2] l2]; [|done..].
  destruct (k' b st2) as [[r st3] l3]. by rewrite app_assoc.
Qed.

Lemma bind_ext {A B} (m : Sh A) (k k' : A → Sh B) (st : State) :
  (∀ a st', k a st' = k' a st') → bind m k st = bind m k' st.
Proof.
  intros H. unfold bind. destruct (m st) as [[[a|s|c] st1] l1]; [|done..].
  by rewrite H.
Qed.

(** [main] is its first line, then the pipeline. *)
Lemma main_pipeline (w : World) (arg1 : option string) :
  main w arg1 =
  (print_status w ("Starting deployment for environment: " +:+ ENVIRONMENT arg1) ;;
   pipeline w).
Proof. reflexivity. Qed.

(** [main] is what comes before the health check, then the rest. *)
Lemma main_split (w : World) (arg1 : option string) (st : State) :
  main w arg1 st = (until_cutover w arg1 ;; verify_and_finish w) st.
Proof.
  symmetry. unfold until_cutover.
  do 5 (rewrite bind_assoc; apply bind_ext; intros _ ?).
  reflexivity.
Qed.

Lemma run_after_cutover (w : World) (arg1 : option string) (st st1 : State)
    (out1 : list Line) :
  until_cutover w arg1 st = (Ok tt, st1, out1) →
  main w arg1 st =
    (let '(r, st2, out2) := verify_and_finish w st1 in (r, st2, out1 ++ out2)).
Proof.
  intros E. rewrite main_split. unfold bind at 1. by rewrite E.
Qed.

(** ** Health verification *)

Lemma forallb_false {A} (f : A → bool) (l : list A) :
  forallb f l = false → ∃ x, x ∈ l ∧ f x = false.
Proof.
  induction l as [|x l IH]; simpl; [done|].
  destruct (f x) eqn:Ex; simpl.
  - intros H. destruct (IH H) as (y & Hy & Hf). exists y.
    split; [by apply list_elem_of_further|done].
  - intros _. exists x. split; [apply list_elem_of_here|done].
Qed.

(** What a call of [health_check] does, from any state. *)
Lemma health_check_run (w : World) (st : State) :
  ∃ st' out,
    call (health_check w) st =
      (Ok (if forallb (λ c, healthy w st c.2) CHECKS then 0 else 1), st', out) ∧
    ops st' = ops st ++ ((λ c, Curl c.2) <$> probed (healthy w st) CHECKS) ∧
    List.filter is_error out =
      match List.find (λ c, negb (healthy w st c.2)) CHECKS with
      | Some c => [failure_line c]
      | None => []
      end ∧
    fs st' = fs st.
Proof.
  destruct st as [f tr n].
  unfold health_check, healthy, CHECKS.
  simpl probed. simpl List.find. simpl forallb.
  sh_eval.
  destruct (status w (Curl MAIN_API_URL) _ =? 0) eqn:E1; sh_eval;
    [|do 2 eexists; split; [reflexivity|]; by rewrite <- ?app_assoc].
  destruct (status w (Curl SCRAPER_API_URL) _ =? 0) eqn:E2; sh_eval;
    [|do 2 eexists; split; [reflexivity|]; by rewrite <- ?app_assoc].
  destruct (status w (Curl FRONTEND_URL) _ =? 0) eqn:E3; sh_eval;
    do 2 eexists; (split; [reflexivity|]); by rewrite <- ?app_assoc.
Qed.

(** C7. Whatever the three services answer, [health_check] returns, and
    its status is 0 when all of them are healthy and 1 otherwise: the
    verdict is the conjunction of the three answers, and it is a failure if
    and only if some service is unhealthy. *)
Theorem health_verdict (w : World) (st : State) :
  ∃ v st' out,
    call (health_check w) st = (Ok v, st', out) ∧
    v = (if forallb (λ c, healthy w st c.2) CHECKS then 0 else 1) ∧
    (v = 0 ↔ ∀ c, c ∈ CHECKS → healthy w st c.2 = true) ∧
    (v ≠ 0 ↔ ∃ c, c ∈ CHECKS ∧ healthy w st c.2 = false).
Proof.
  destruct (health_check_run w st) as (st' & out & E & _).
  eexists _, st', out. split; [exact E|]. split; [reflexivity|].
  destruct (forallb _ CHECKS) eqn:Ef.
  - rewrite forallb_forall in Ef. split; split; try done.
    + intros _ c Hc. apply Ef. by apply list_elem_of_In.
    + intros (c & Hc & Hh). apply list_elem_of_In, Ef in Hc. congruence.
  - split; split; try done.
    + intros Hall. exfalso. apply not_true_iff_false in Ef. apply Ef.
      apply forallb_forall. intros c Hc. apply Hall. by apply list_elem_of_In.
    + intros _. by apply forallb_false.
Qed.

(** C2 (as the script has it). [health_check] probes the services in its
    order and stops at the first unhealthy one: the probes it makes are
    those up to and including the first failure, and the only error line
    it prints names that first unhealthy service. *)
Theorem health_fail_fast (w : World) (st : State) :
  ∃ v st' out,
    call (health_check w) st = (Ok v, st', out) ∧
    ops st' = ops st ++ ((λ c, Curl c.2) <$> probed (healthy w st) CHECKS) ∧
    List.filter is_error out =
      match List.find (λ c, negb (healthy w st c.2)) CHECKS with
      | Some c => [failure_line c]
      | None => []
      end ∧
    (length (List.filter is_error out) ≤ 1)%nat.
Proof.
  destruct (health_check_run w st) as (st' & out & E & Hops & Herr & _).
  eexists _, st', out. split; [exact E|]. split; [exact Hops|].
  split; [exact Herr|]. rewrite Herr. destruct (List.find _ _); simpl; lia.
Qed.

(** C2, as stated, fails: with the main API and the scraper API both
    unhealthy, the scraper API is never probed. *)
Lemma eager_claim_fails : ¬ eager_claim.
Proof.
  intros H.
  destruct (H (unhealthy [MAIN_API_URL; SCRAPER_API_URL]) site
              ("Scraper API", SCRAPER_API_URL)) as [Hop _]; [in_list|].
  vm_compute in Hop.
  apply list_elem_of_In in Hop. simpl in Hop.
  destruct Hop as [Hop|[]]. discriminate Hop.
Qed.

(** ** Prerequisites *)

(** The run of a script that misses a prerequisite. *)
Lemma prerequisite_run (w : World) (arg1 : option string) (st : State) :
  prerequisite_missing w st →
  ∃ n s1 s2 msg,
    script w arg1 st =
      (1, MkState (fs st) (ops st) n,
       [Status s1 ("Starting deployment for environment: " +:+ ENVIRONMENT arg1);
        Status s2 "Checking prerequisites..."; Error msg]).
Proof.
  intros Hmiss. destruct st as [[files dirs backups] tr n].
  unfold prerequisite_missing in Hmiss. cbn [fs fs_files] in Hmiss.
  unfold script, main, check_prerequisites. sh_eval.
  destruct (installed w "docker"); [|simpl; eauto 10].
  destruct (installed w "docker-compose"); [|simpl; eauto 10].
  destruct (bool_decide (is_Some (files !! ENV_FILE))) eqn:E1; [|simpl; eauto 10].
  destruct (bool_decide (is_Some (files !! COMPOSE_FILE))) eqn:E2; [|simpl; eauto 10].
  apply bool_decide_eq_true_1 in E1 as [? E1], E2 as [? E2].
  destruct Hmiss as [?|[?|[?|?]]]; congruence.
Qed.

(** C6. When a required tool or one of the two required files is missing,
    the run ends in the prerequisite check with exit code 1: it runs no
    external command at all (no [mkdir], no backup, no build, no
    [docker-compose]), leaves the file system as it was, and prints
    nothing after the error of the check. *)
Theorem missing_prerequisite_stops (w : World) (arg1 : option string) (st : State) :
  prerequisite_missing w st →
  let r := script w arg1 st in
  exit_code r = 1 ∧
  ops (final r) = ops st ∧
  fs (final r) = fs st ∧
  ∃ s1 s2 msg,
    output r =
      [Status s1 ("Starting deployment for environment: " +:+ ENVIRONMENT arg1);
       Status s2 "Checking prerequisites..."; Error msg].
Proof.
  intros Hmiss r. subst r.
  destruct (prerequisite_run w arg1 st Hmiss) as (n & s1 & s2 & msg & E).
  rewrite E. cbn [exit_code final output fst snd fs ops]. eauto 10.
Qed.

Lemma missing_prerequisite_stops_witness :
  exit_code (script calm None (start site_without_env)) = 1 ∧
  ops (final (script no_compose (Some "production") (start site))) = [].
Proof.
  split.
  - apply (missing_prerequisite_stops calm None (start site_without_env)).
    right. right. left. reflexivity.
  - apply (missing_prerequisite_stops no_compose (Some "production") (start site)).
    right. left. reflexivity.
Defined.

(** ** Backup ids and the order of creation *)

(** X4. Whatever happens to it, [backup_current] runs as its first
    command the [mkdir] of the directory named by [backup_id]: the name
    is made of the second reading of the clock in the step. *)
Theorem backup_current_id (w : World) (st : State) :
  ∃ r st' out rest,
    backup_current w st = (r, st', out) ∧
    ops st' = ops st ++ MkdirBackup (backup_id w st) :: rest.
Proof.
  destruct st as [[files dirs backups] tr n].
  unfold backup_id, BACKUP_NAME, backup_current. cbn [dates ops]. sh_eval.
  destruct (status w (MkdirBackup _) _ =? 0); sh_eval;
    [|by do 4 eexists].
  destruct (status w DockerPsQuiet _ =? 0); sh_eval.
  - destruct (status w (DockerPsAll _) _ =? 0); sh_eval;
      [|do 4 eexists; split; [reflexivity|]; by rewrite <- !app_assoc].
    destruct (bool_decide (is_Some (files !! ENV_FILE))); sh_eval;
      [|do 4 eexists; split; [reflexivity|]; by rewrite <- !app_assoc].
    destruct (status w (CpEnv _) _ =? 0); sh_eval;
      do 4 eexists; (split; [reflexivity|]); by rewrite <- !app_assoc.
  - destruct (bool_decide (is_Some (files !! ENV_FILE))); sh_eval;
      [|do 4 eexists; split; [reflexivity|]; by rewrite <- !app_assoc].
    destruct (status w (CpEnv _) _ =? 0); sh_eval;
      do 4 eexists; (split; [reflexivity|]); by rewrite <- !app_assoc.
Qed.

(** C8, as stated, fails: of two backups made one after the other while
    the local clock is set back by an hour, the second has the smaller
    id. *)
Lemma creation_order_claim_fails : ¬ creation_order_claim.
Proof.
  intros H.
  pose (st2 := (backup_current fall_back (start site)).1.2).
  assert (Hlater : (dates (start site) < dates st2)%nat) by (vm_compute; lia).
  apply (H fall_back) in Hlater. apply Hlater. vm_compute. reflexivity.
Qed.

(** ** The environment argument *)

(** C9. Two runs that differ only in the argument end with the same exit
    code in the same state (the same file system and the same trace of
    commands), and their outputs differ only in the first line, the one
    that names the environment. *)
Theorem environment_only_in_first_line (w : World) (a1 a2 : option string) (st : State) :
  let r1 := script w a1 st in
  let r2 := script w a2 st in
  exit_code r1 = exit_code r2 ∧ final r1 = final r2 ∧
  ∃ stamp rest,
    output r1 =
      Status stamp ("Starting deployment for environment: " +:+ ENVIRONMENT a1) :: rest ∧
    output r2 =
      Status stamp ("Starting deployment for environment: " +:+ ENVIRONMENT a2) :: rest.
Proof.
  unfold script. rewrite !main_pipeline.
  cbv beta iota zeta delta [bind print_status date echo].
  destruct (pipeline w _) as [[[?|?|?] st'] out]; simpl; eauto 10.
Qed.

(** ** The backup step *)

Ltac not_in_list :=
  let H := fresh in
  intros H; repeat (apply elem_of_cons in H as [H|H]; [discriminate H|]);
  by apply elem_of_nil in H.

(** After a backup that went through, the build is the next command. *)
Lemma backup_then_build (w : World) (st st' : State) (out : list Line) :
  backup_current w st = (Ok tt, st', out) →
  ∃ r st'' out',
    (backup_current w ;; build_images w) st = (r, st'', out') ∧
    ops st'' = ops st' ++ [Compose COMPOSE_FILE Build].
Proof.
  destruct st' as [f' tr' n']. intros E. cbv beta delta [bind]. rewrite E.
  cbv beta iota. unfold build_images. sh_eval.
  destruct (status w (Compose COMPOSE_FILE Build) _ =? 0); sh_eval;
    do 3 eexists; split; reflexivity.
Qed.

(** C10. When the environment file is absent as the backup step starts
    (the directory of the backup can be made, and the container list can
    be written if containers are running), [backup_current] completes
    without an error line and without running [cp]; the backup it has made
    holds no copy of the environment file; and the run goes on: the build
    is the next command. *)
Theorem backup_without_env_file (w : World) (st : State) :
  let name := BACKUP_NAME (clock w (S (dates st))) in
  fs_files (fs st) !! ENV_FILE = None →
  status w (MkdirBackup name) (occurrences (MkdirBackup name) (ops st)) = 0 →
  (status w DockerPsQuiet (occurrences DockerPsQuiet (ops st)) ≠ 0 ∨
   status w (DockerPsAll name) (occurrences (DockerPsAll name) (ops st)) = 0) →
  ∃ st' out,
    backup_current w st = (Ok tt, st', out) ∧
    List.filter is_error out = [] ∧
    (CpEnv name ∉ drop (length (ops st)) (ops st')) ∧
    (fs_backups (fs st) !! name = None →
     ∃ b, fs_backups (fs st') !! name = Some b ∧ b_env b = None) ∧
    ∃ r st'' out',
      (backup_current w ;; build_images w) st = (r, st'', out') ∧
      ops st'' = ops st' ++ [Compose COMPOSE_FILE Build].
Proof.
  intros name Henv Hmk Hps.
  assert (Hcore : ∃ st' out,
    backup_current w st = (Ok tt, st', out) ∧
    List.filter is_error out = [] ∧
    (CpEnv name ∉ drop (length (ops st)) (ops st')) ∧
    (fs_backups (fs st) !! name = None →
     ∃ b, fs_backups (fs st') !! name = Some b ∧ b_env b = None)).
  { revert Henv Hmk Hps. subst name.
    destruct st as [[files dirs backups] tr n]. set (name := BACKUP_NAME _).
    cbn [fs ops dates fs_files fs_backups] in *. intros Henv Hmk Hps.
    assert (Hno : bool_decide (is_Some (files !! ENV_FILE)) = false).
    { apply bool_decide_eq_false_2. rewrite Henv. by intros [? ?]. }
    apply Z.eqb_eq in Hmk.
    unfold backup_current. sh_eval. fold (BACKUP_NAME (clock w (S n))). fold name.
    rewrite Hmk. sh_eval. fold name.
    destruct (status w DockerPsQuiet _ =? 0) eqn:E1; sh_eval; fold name.
    - destruct Hps as [Hps|Hps]; [apply Z.eqb_eq in E1; done|].
      apply Z.eqb_eq in Hps. rewrite Hps. sh_eval. rewrite Hno. sh_eval.
      do 2 eexists. split; [reflexivity|].
      split; [done|]. split.
      { cbn [ops]. rewrite <- !app_assoc, drop_app_length. not_in_list. }
      intros Hnew. rewrite Hnew. cbn [fs fs_backups].
      rewrite lookup_alter_eq, lookup_insert_eq. simpl. eauto.
    - rewrite Hno. sh_eval.
      do 2 eexists. split; [reflexivity|].
      split; [done|]. split.
      { cbn [ops]. rewrite <- !app_assoc, drop_app_length. not_in_list. }
      intros Hnew. rewrite Hnew. cbn [fs fs_backups].
      rewrite lookup_insert_eq. simpl. eauto. }
  destruct Hcore as (st' & out & E & H1 & H2 & H3).
  exists st', out. repeat split; try done. by eapply backup_then_build.
Qed.

Lemma backup_without_env_file_witness :
  ∃ st' out,
    backup_current calm (start site_without_env) = (Ok tt, st', out) ∧
    ∃ b, fs_backups (fs st') !! BACKUP_NAME noon = Some b ∧ b_env b = None.
Proof.
  destruct (backup_without_env_file calm (start site_without_env))
    as (st' & out & E & _ & _ & Hb & _).
  - reflexivity.
  - reflexivity.
  - right. reflexivity.
  - exists st', out. split; [exact E|]. apply Hb. reflexivity.
Defined.

(** ** Retention *)

(** *** The text in the pipeline of line 168 *)

Lemma append_nil_r (s : string) : s +:+ EmptyString = s.
Proof. induction s as [|c s IH]; [done|]. by rewrite append_String, IH. Qed.

Lemma snoc_append (buf : string) (c : ascii) (s : string) :
  snoc buf c +:+ s = buf +:+ String c s.
Proof.
  unfold snoc. induction buf as [|c' buf IH]; [done|].
  by rewrite !append_String, IH.
Qed.

Lemma plain_String (c : ascii) (s : string) :
  plain (String c s) = true →
  is_space c = false ∧ Ascii.eqb c BACKSLASH = false ∧ is_quote c = false ∧
  plain s = true.
Proof.
  simpl. destruct (is_space c), (Ascii.eqb c BACKSLASH), (is_quote c); simpl; try done.
Qed.

Lemma plain_String_plain (c : ascii) (s : string) :
  plain (String c EmptyString) = true → plain (String c s) = plain s.
Proof.
  simpl. destruct (is_space c), (Ascii.eqb c BACKSLASH), (is_quote c); simpl; done.
Qed.

Lemma is_space_LF (c : ascii) : is_space c = false → Ascii.eqb c LF = false.
Proof.
  unfold is_space. simpl. intros H.
  destruct (Ascii.eqb c LF) eqn:E; [|done].
  unfold LF in E. rewrite E in H. simpl in H. by rewrite !orb_true_r in H.
Qed.

Lemma one_word_plain (name : string) : one_word name = true → plain name = true.
Proof.
  destruct name as [|c s]; [done|]. unfold one_word.
  by intros [? _]%andb_true_iff.
Qed.

Lemma skip_line_name (name rest : string) :
  plain name = true → skip_line (name +:+ String LF rest) = rest.
Proof.
  induction name as [|c name IH]; [done|].
  intros (Hs & _ & _ & Hp)%plain_String.
  rewrite append_String. simpl. rewrite (is_space_LF _ Hs). by apply IH.
Qed.

(** [tail] counts the names when no name holds a line feed. *)
Lemma tail_from_ls_output (k : nat) (names : list string) :
  Forall (λ name, plain name = true) names →
  tail_from (S k) (ls_output names) = ls_output (drop k names).
Proof.
  intros Hp. unfold tail_from. replace (S k - 1)%nat with k by lia.
  induction k as [|k IH]; [by rewrite drop_0|].
  simpl. rewrite IH.
  assert (Hd : Forall (λ name, plain name = true) (drop k names))
    by by apply Forall_drop.
  rewrite <- (Nat.add_1_r k), <- drop_drop.
  destruct (drop k names) as [|name rest]; [done|].
  simpl. apply skip_line_name. by inversion Hd.
Qed.

Lemma xargs_words_name (name : string) : ∀ (buf rest : string),
  plain name = true →
  xargs_words (name +:+ String LF rest) (InWord buf) =
  ((buf +:+ name) ::.) <$> xargs_words rest Between.
Proof.
  induction name as [|c name IH]; intros buf rest Hp.
  - by rewrite append_empty, append_nil_r.
  - apply plain_String in Hp as (Hs & Hb & Hq & Hp).
    rewrite append_String. simpl. rewrite Hs, Hb, Hq.
    by rewrite IH, snoc_append.
Qed.

(** [xargs] finds the names again when each of them is one word. *)
Lemma xargs_words_ls_output (names : list string) :
  Forall (λ name, one_word name = true) names →
  xargs_words (ls_output names) Between = Some names.
Proof.
  induction 1 as [|name names Hn _ IH]; [done|].
  destruct name as [|c name]; [done|].
  apply one_word_plain, plain_String in Hn as (Hs & Hb & Hq & Hp).
  cbn [ls_output]. rewrite append_String. simpl. rewrite Hs, Hb, Hq.
  change (snoc EmptyString c) with (String c EmptyString).
  by rewrite xargs_words_name, IH.
Qed.

Lemma one_word_not_option (names : list string) :
  Forall (λ name, one_word name = true) names → existsb is_option names = false.
Proof.
  induction 1 as [|name names Hn _ IH]; [done|].
  simpl. rewrite IH, orb_false_r.
  destruct name as [|c name]; [done|]. unfold one_word in Hn.
  apply andb_true_iff in Hn as [_ Hn]. by apply negb_true_iff.
Qed.

Section Prune.

Variable w : World.
Hypothesis Hcollate : collation w.

Local Instance newer_first_total : Total (newer_first w).
Proof.
  intros [n1 b1] [n2 b2]. unfold newer_first. simpl.
  destruct (Z.lt_trichotomy (b_mtime b1) (b_mtime b2)) as [?|[?|?]];
    [by auto| |by auto].
  destruct (proj1 Hcollate n1 n2); [left|right]; right; by split.
Qed.

Local Instance newer_first_trans : Transitive (newer_first w).
Proof.
  intros [n1 b1] [n2 b2] [n3 b3]. unfold newer_first. simpl.
  intros [?|[? ?]] [?|[? ?]]; try lia.
  right. split; [lia|]. by eapply (proj2 Hcollate).
Qed.

Lemma ls_t_names (d : gmap string Backup) (k : string) :
  k ∈ ls_t w d ↔ is_Some (d !! k).
Proof.
  unfold ls_t. rewrite merge_sort_Permutation, list_elem_of_fmap. split.
  - intros ([k' b] & -> & Hin). exists b. by apply elem_of_map_to_list.
  - intros [b Hb]. exists (k, b). split; [done|]. by apply elem_of_map_to_list.
Qed.

(** In a directory whose names are one word each, the pipeline removes
    the entries that [ls -t] lists after the fifth, and only them. *)
Lemma prune_old_plain (d : gmap string Backup) :
  plain_names d → prune_old w d = foldr delete d (drop 5 (ls_t w d)).
Proof.
  intros Hd.
  assert (Hw : Forall (λ name, one_word name = true) (ls_t w d)).
  { apply Forall_forall. intros k Hk. by apply Hd, ls_t_names. }
  unfold prune_old, xargs_rm_rf.
  rewrite tail_from_ls_output
    by (eapply Forall_impl; [exact Hw|]; intros ?; apply one_word_plain).
  assert (Hw' : Forall (λ name, one_word name = true) (drop 5 (ls_t w d)))
    by by apply Forall_drop.
  rewrite xargs_words_ls_output by done.
  destruct (drop 5 (ls_t w d)) as [|word words] eqn:E; [done|].
  unfold rm_rf. by rewrite one_word_not_option.
Qed.

(** The entries that survive are the first five of the listing. *)
Lemma prune_old_lookup (d : gmap string Backup) (k : string) (b : Backup) :
  plain_names d →
  prune_old w d !! k = Some b ↔
  (k, b) ∈ take 5 (merge_sort (newer_first w) (map_to_list d)).
Proof.
  intros Hd. rewrite prune_old_plain by done. unfold ls_t.
  set (L := merge_sort (newer_first w) (map_to_list d)).
  assert (HL : L ≡ₚ map_to_list d) by apply merge_sort_Permutation.
  assert (Hnd : NoDup L.*1).
  { rewrite HL. apply NoDup_fst_map_to_list. }
  rewrite lookup_foldr_delete_Some, <- elem_of_map_to_list, <- HL.
  rewrite <- fmap_drop.
  rewrite <- (take_drop 5 L) in Hnd at 1. rewrite fmap_app in Hnd.
  apply NoDup_app in Hnd as (_ & Hdisj & _).
  rewrite <- (take_drop 5 L) at 2. rewrite elem_of_app.
  split.
  - intros [Hk [?|Hin]]; [done|]. destruct Hk.
    apply list_elem_of_fmap. by exists (k, b).
  - intros Hin. split; [|by left].
    apply Hdisj. apply list_elem_of_fmap. by exists (k, b).
Qed.

Lemma prune_old_size (d : gmap string Backup) :
  plain_names d → size (prune_old w d) = (size d `min` 5)%nat.
Proof.
  intros Hd.
  set (L := merge_sort (newer_first w) (map_to_list d)).
  assert (Hnd : NoDup (take 5 L).*1).
  { rewrite fmap_take. eapply sublist_NoDup; [|apply sublist_take]. unfold L.
    rewrite merge_sort_Permutation. apply NoDup_fst_map_to_list. }
  assert (E : prune_old w d = list_to_map (take 5 L)).
  { apply map_eq. intros k. apply option_eq. intros b.
    rewrite prune_old_lookup by done. by apply elem_of_list_to_map. }
  rewrite E, map_size_list_to_map by done.
  rewrite length_take. unfold L.
  rewrite merge_sort_Permutation, length_map_to_list. lia.
Qed.

Lemma prune_old_subseteq (d : gmap string Backup) :
  plain_names d → prune_old w d ⊆ d.
Proof.
  intros Hd. rewrite prune_old_plain by done.
  apply map_subseteq_spec. intros k b.
  rewrite lookup_foldr_delete_Some. tauto.
Qed.


(** A survivor is at least as recent as any entry that was removed. *)
Lemma prune_old_newest (d : gmap string Backup) (k k' : string) (b b' : Backup) :
  plain_names d →
  prune_old w d !! k = Some b → d !! k' = Some b' → prune_old w d !! k' = None →
  b_mtime b' ≤ b_mtime b.
Proof.
  intros Hd Hk Hk' Hgone.
  set (L := merge_sort (newer_first w) (map_to_list d)).
  assert (Hs : StronglySorted (newer_first w) (take 5 L ++ drop 5 L)).
  { rewrite take_drop. apply StronglySorted_merge_sort; apply _. }
  apply prune_old_lookup in Hk; [|done]. fold L in Hk.
  assert (Hin : (k', b') ∈ drop 5 L).
  { assert (Hall : (k', b') ∈ take 5 L ++ drop 5 L).
    { rewrite take_drop. unfold L. rewrite merge_sort_Permutation.
      by apply elem_of_map_to_list. }
    apply elem_of_app in Hall as [Hin|Hin]; [|done].
    apply prune_old_lookup in Hin; [|done]. congruence. }
  pose proof (StronglySorted_app_1_elem_of _ _ _ _ _ Hs Hk Hin) as Hr.
  unfold newer_first in Hr. simpl in Hr. lia.
Qed.

End Prune.



Lemma string_leb_trans (s1 : string) : ∀ s2 s3,
  String.leb s1 s2 = true → String.leb s2 s3 = true → String.leb s1 s3 = true.
Proof.
  unfold String.leb.
  induction s1 as [|c1 s1 IH]; intros [|c2 s2] [|c3 s3]; simpl; try done.
  unfold Ascii.compare.
  destruct (N.compare_spec (N_of_ascii c1) (N_of_ascii c2));
    destruct (N.compare_spec (N_of_ascii c2) (N_of_ascii c3));
    destruct (N.compare_spec (N_of_ascii c1) (N_of_ascii c3));
    try done; try (exfalso; lia).
  apply IH.
Qed.

(** The byte order of the C locale is a collation. *)
Lemma collation_world_with (statuses : Cmd → nat → Z) : collation (world_with statuses).
Proof.
  split; [apply String.leb_total|]. intros a b c. apply string_leb_trans.
Defined.

Lemma plain_digit (d : N) (acc : string) :
  (d < 10)%N → plain (String (digit d) acc) = plain acc.
Proof.
  intros Hd.
  assert (d = 0 ∨ d = 1 ∨ d = 2 ∨ d = 3 ∨ d = 4 ∨ d = 5 ∨ d = 6 ∨ d = 7 ∨
          d = 8 ∨ d = 9)%N as H by lia.
  repeat (destruct H as [->|H]; [reflexivity|]). by subst.
Qed.

Lemma plain_digits (n : nat) : ∀ (x : N) (acc : string),
  plain (digits n x acc) = plain acc.
Proof.
  induction n as [|n IH]; intros x acc; [done|].
  simpl. rewrite IH. apply plain_digit. by apply N.mod_lt.
Qed.

(** X7. Whatever the clock reads, the name the script gives a backup is
    one word for the prune pipeline: [xargs] hands it to [rm] as it is. *)
Theorem backup_name_one_word (t : tm) : one_word (BACKUP_NAME t) = true.
Proof.
  unfold BACKUP_NAME. rewrite !append_String, append_empty.
  unfold one_word. cbn [is_option negb]. rewrite andb_true_r.
  do 7 (rewrite plain_String_plain by reflexivity).
  unfold fmt_compact, fmt_Y, fmt_2.
  destruct (_ <? _)%N; rewrite !plain_digits;
    (rewrite plain_String_plain by reflexivity); by rewrite !plain_digits.
Qed.

(** A name that holds a blank is not removed: [xargs] hands its two halves
    to [rm], which finds neither, and the sixth entry goes alone. *)
Example prune_splits_names :
  size (prune_old calm spaced_backups) = 6%nat ∧
  is_Some (prune_old calm spaced_backups !! "old backup") ∧
  prune_old calm spaced_backups !! "backup_20240302_120000" = None.
Proof. split; [|split; [eexists|]]; vm_compute; reflexivity. Qed.

(** The order of the prune step is that of the modification times, not
    that of the names: a touched old backup outlives two newer ones. *)
Example prune_follows_modification_time :
  is_Some (prune_old calm touched_backups !! "backup_20240301_120000") ∧
  prune_old calm touched_backups !! "backup_20240302_120000" = None ∧
  prune_old calm touched_backups !! "backup_20240303_120000" = None.
Proof. split; [eexists|split]; vm_compute; reflexivity. Qed.




(** ** Rollback *)

(** The rest of a run whose health check has failed. *)
Lemma rollback_run (w : World) (arg1 : option string) (st st1 st2 : State)
    (out1 out2 : list Line) (health : Z) :
  until_cutover w arg1 st = (Ok tt, st1, out1) →
  call (health_check w) st1 = (Ok health, st2, out2) →
  health ≠ 0 →
  let down := status w (Compose COMPOSE_FILE Down)
                (occurrences (Compose COMPOSE_FILE Down) (ops st2)) in
  script w arg1 st =
    (if down =? 0 then 1 else down,
     MkState (fs st2) (ops st2 ++ [Compose COMPOSE_FILE Down]) (dates st2),
     out1 ++ out2 ++ [Error "Deployment failed! Rolling back..."]).
Proof.
  intros E1 E2 Hh. unfold script. rewrite (run_after_cutover _ _ _ _ _ E1).
  unfold verify_and_finish. unfold bind at 1 2. rewrite E2.
  apply Z.eqb_neq in Hh. rewrite Hh.
  destruct st2 as [f tr n]. cbn [fs ops dates]. unfold rollback. sh_eval.
  destruct (status w (Compose COMPOSE_FILE Down) _ =? 0) eqn:Ed; sh_eval;
    by rewrite ?app_nil_r.
Qed.

(** C3 (as the script has it). When the health check fails after the
    cutover, the rollback runs the teardown exactly once, as the last
    command of the run, and prints nothing after its announcement: no line
    reports an error of the teardown.  The exit code is 1 when the
    teardown succeeds; when it fails, [set -e] ends the shell there, and
    the exit code is the status of the teardown.  It is never 0. *)
Theorem rollback_exit_code (w : World) (arg1 : option string) (st st1 st2 : State)
    (out1 out2 : list Line) (health : Z) :
  until_cutover w arg1 st = (Ok tt, st1, out1) →
  call (health_check w) st1 = (Ok health, st2, out2) →
  health ≠ 0 →
  let r := script w arg1 st in
  let down := status w (Compose COMPOSE_FILE Down)
                (occurrences (Compose COMPOSE_FILE Down) (ops st2)) in
  ops (final r) = ops st2 ++ [Compose COMPOSE_FILE Down] ∧
  exit_code r = (if down =? 0 then 1 else down) ∧
  exit_code r ≠ 0 ∧
  output r = out1 ++ out2 ++ [Error "Deployment failed! Rolling back..."].
Proof.
  intros E1 E2 Hh r down. subst r. rewrite (rollback_run _ _ _ _ _ _ _ _ E1 E2 Hh).
  fold down. cbn [exit_code final output fst snd ops].
  repeat split. destruct (down =? 0) eqn:Ed; [done|]. by apply Z.eqb_neq.
Qed.

Lemma rollback_exit_code_witness :
  exit_code (script (unhealthy [MAIN_API_URL]) None (start site)) = 1 ∧
  exit_code (script failed_teardown None (start site)) = 2.
Proof.
  split.
  - set (w := unhealthy [MAIN_API_URL]).
    pose (st1 := (until_cutover w None (start site)).1.2).
    assert (E1 : until_cutover w None (start site) =
                 (Ok tt, st1, (until_cutover w None (start site)).2))
      by (vm_compute; reflexivity).
    assert (E2 : call (health_check w) st1 =
                 (Ok 1, (call (health_check w) st1).1.2, (call (health_check w) st1).2))
      by (vm_compute; reflexivity).
    destruct (rollback_exit_code w _ _ _ _ _ _ _ E1 E2 ltac:(done)) as (_ & Hcode & _).
    rewrite Hcode. vm_compute. reflexivity.
  - set (w := failed_teardown).
    pose (st1 := (until_cutover w None (start site)).1.2).
    assert (E1 : until_cutover w None (start site) =
                 (Ok tt, st1, (until_cutover w None (start site)).2))
      by (vm_compute; reflexivity).
    assert (E2 : call (health_check w) st1 =
                 (Ok 1, (call (health_check w) st1).1.2, (call (health_check w) st1).2))
      by (vm_compute; reflexivity).
    destruct (rollback_exit_code w _ _ _ _ _ _ _ E1 E2 ltac:(done)) as (_ & Hcode & _).
    rewrite Hcode. vm_compute. reflexivity.
Defined.

(** C3, as stated, fails: when the teardown exits with 2, so does the
    script. *)
Lemma rollback_claim_fails : ¬ rollback_claim.
Proof.
  intros H.
  pose (st1 := (until_cutover failed_teardown None (start site)).1.2).
  assert (E1 : until_cutover failed_teardown None (start site) =
               (Ok tt, st1, (until_cutover failed_teardown None (start site)).2))
    by (vm_compute; reflexivity).
  assert (E2 : call (health_check failed_teardown) st1 =
               (Ok 1, (call (health_check failed_teardown) st1).1.2,
                (call (health_check failed_teardown) st1).2))
    by (vm_compute; reflexivity).
  destruct (H _ _ _ _ _ _ _ _ E1 E2 ltac:(done)) as [_ Hcode].
  vm_compute in Hcode. discriminate Hcode.
Qed.

(** ** Cleanup *)

Ltac cleanup_stop c :=
  intros [= <- <- <-]; split;
  [ split; [intros; congruence | intros [[? ?] ?]; tauto]
  | intros _; exists c; cbn [ops]; rewrite last_snoc;
    split; [in_list|done] ].

Ltac cleanup_done :=
  intros [= <- <- <-]; split;
  [ split; [intros; try congruence; tauto | intros [[? ?] ?]; try congruence; tauto]
  | intros Hn; exfalso; apply Hn; tauto ].

(** C4 (as the script has it). Once the health check has passed, the run
    ends with exit code 0 if and only if every command of the cleanup
    succeeds and so does the final [docker-compose ps]: under [set -e], a
    cleanup command that fails ends the run there, as its last command,
    with its own non-zero status as exit code. *)
Theorem cleanup_failure_is_fatal (w : World) (arg1 : option string)
    (st st1 st2 : State) (out1 out2 : list Line) :
  until_cutover w arg1 st = (Ok tt, st1, out1) →
  call (health_check w) st1 = (Ok 0, st2, out2) →
  let r := script w arg1 st in
  let ps := status w (Compose COMPOSE_FILE Ps)
              (occurrences (Compose COMPOSE_FILE Ps) (ops st2)) in
  (exit_code r = 0 ↔ cleanup_succeeds w st2 ∧ ps = 0) ∧
  (¬ cleanup_succeeds w st2 →
   ∃ c, c ∈ CLEANUP_COMMANDS ∧ last (ops (final r)) = Some c ∧
        exit_code r = status w c (occurrences c (ops st2)) ∧ exit_code r ≠ 0).
Proof.
  intros E1 E2 r ps. subst r ps.
  destruct (script w arg1 st) as [[code stf] outf] eqn:Er.
  cbn [exit_code final output fst snd]. revert Er.
  unfold script. rewrite (run_after_cutover _ _ _ _ _ E1).
  unfold verify_and_finish. unfold bind at 1 2. rewrite E2.
  change (0 =? 0) with true. cbv iota.
  destruct st2 as [[files dirs backups] tr n].
  unfold cleanup_succeeds, CLEANUP_COMMANDS. cbn [fs ops dates fs_dirs].
  unfold cleanup, report. sh_eval.
  destruct (status w ImagePrune _ =? 0) eqn:Ei; sh_eval;
    [apply Z.eqb_eq in Ei|apply Z.eqb_neq in Ei; cleanup_stop ImagePrune].
  destruct (bool_decide (BACKUP_DIR ∈ dirs)) eqn:Ed; sh_eval.
  - apply bool_decide_eq_true_1 in Ed.
    destruct (status w CdBackupDir _ =? 0) eqn:Ec; sh_eval;
      [apply Z.eqb_eq in Ec|apply Z.eqb_neq in Ec; cleanup_stop CdBackupDir].
    destruct (status w PruneOld _ =? 0) eqn:Ep; sh_eval;
      [apply Z.eqb_eq in Ep|apply Z.eqb_neq in Ep; cleanup_stop PruneOld].
    destruct (status w CdBack _ =? 0) eqn:Eb; sh_eval;
      [apply Z.eqb_eq in Eb|apply Z.eqb_neq in Eb; cleanup_stop CdBack].
    destruct (status w (Compose COMPOSE_FILE Ps) _ =? 0) eqn:Es; sh_eval;
      [apply Z.eqb_eq in Es|apply Z.eqb_neq in Es]; cleanup_done.
  - apply bool_decide_eq_false_1 in Ed.
    destruct (status w (Compose COMPOSE_FILE Ps) _ =? 0) eqn:Es; sh_eval;
      [apply Z.eqb_eq in Es|apply Z.eqb_neq in Es]; cleanup_done.
Qed.

Lemma cleanup_failure_is_fatal_witness :
  exit_code (script calm None (start used_site)) = 0 ∧
  exit_code (script (failing ImagePrune 0 1) None (start used_site)) ≠ 0.
Proof.
  split.
  - set (w := calm).
    pose (st1 := (until_cutover w None (start used_site)).1.2).
    assert (E1 : until_cutover w None (start used_site) =
                 (Ok tt, st1, (until_cutover w None (start used_site)).2))
      by (vm_compute; reflexivity).
    assert (E2 : call (health_check w) st1 =
                 (Ok 0, (call (health_check w) st1).1.2, (call (health_check w) st1).2))
      by (vm_compute; reflexivity).
    destruct (cleanup_failure_is_fatal w _ _ _ _ _ _ E1 E2) as [Hzero _].
    apply Hzero. split; [|reflexivity]. split; [reflexivity|].
    intros _. repeat split; reflexivity.
  - set (w := failing ImagePrune 0 1).
    pose (st1 := (until_cutover w None (start used_site)).1.2).
    assert (E1 : until_cutover w None (start used_site) =
                 (Ok tt, st1, (until_cutover w None (start used_site)).2))
      by (vm_compute; reflexivity).
    assert (E2 : call (health_check w) st1 =
                 (Ok 0, (call (health_check w) st1).1.2, (call (health_check w) st1).2))
      by (vm_compute; reflexivity).
    destruct (cleanup_failure_is_fatal w _ _ _ _ _ _ E1 E2) as [Hzero _].
    intros Hcode. apply Hzero in Hcode as [[Hprune _] _].
    vm_compute in Hprune. discriminate Hprune.
Defined.

(** C4, as stated, fails: when [docker image prune] exits with 1 after a
    healthy deployment, so does the script. *)
Lemma cleanup_claim_fails : ¬ cleanup_claim.
Proof.
  intros H.
  set (w := failing ImagePrune 0 1).
  pose (st1 := (until_cutover w None (start used_site)).1.2).
  assert (E1 : until_cutover w None (start used_site) =
               (Ok tt, st1, (until_cutover w None (start used_site)).2))
    by (vm_compute; reflexivity).
  assert (E2 : call (health_check w) st1 =
               (Ok 0, (call (health_check w) st1).1.2, (call (health_check w) st1).2))
    by (vm_compute; reflexivity).
  specialize (H w _ _ _ _ _ _ E1 E2 ltac:(intros k; reflexivity)).
  vm_compute in H. discriminate H.
Qed.

(** ** Exit codes *)

Section ExitCodes.

Variable w : World.

Lemma exits_well_bind {A B} (m : Sh A) (k : A → Sh B) :
  exits_well w m → (∀ a, exits_well w (k a)) → exits_well w (bind m k).
Proof.
  intros Hm Hk st. unfold bind. specialize (Hm st).
  destruct (m st) as [[[a|s|c] st1] l1]; [|done..].
  specialize (Hk a st1). by destruct (k a st1) as [[[b|s|c] st2] l2].
Qed.

Lemma exits_well_ret {A} (a : A) : exits_well w (ret a).
Proof. by intros st. Qed.

Lemma exits_well_exit_1 {A} : exits_well w (@exit A 1).
Proof. intros st. simpl. split; [done|by left]. Qed.

Lemma exits_well_echo l : exits_well w (echo l).
Proof. by intros st. Qed.

Lemma exits_well_date fmt : exits_well w (date w fmt).
Proof. by intros st. Qed.

Lemma exits_well_test_f path : exits_well w (test_f path).
Proof. by intros st. Qed.

Lemma exits_well_test_d path : exits_well w (test_d path).
Proof. by intros st. Qed.

Lemma exits_well_command_v tool : exits_well w (command_v w tool).
Proof. by intros st. Qed.

Lemma exits_well_cond c : exits_well w (cond w c).
Proof. by intros st. Qed.

Lemma exits_well_simple c : exits_well w (simple w c).
Proof.
  intros [f tr n]. unfold simple. sh_eval.
  destruct (status w c (occurrences c tr) =? 0) eqn:E; [done|].
  apply Z.eqb_neq in E. split; [done|]. right. by exists tr, c.
Qed.

Lemma exits_well_if {A} (b : bool) (m1 m2 : Sh A) :
  exits_well w m1 → exits_well w m2 → exits_well w (if b then m1 else m2).
Proof. by destruct b. Qed.

Lemma exits_well_when b m : exits_well w m → exits_well w (when b m).
Proof. destruct b; [done|]. intros _. apply exits_well_ret. Qed.

Lemma exits_well_unless b m : exits_well w m → exits_well w (unless b m).
Proof. destruct b; [|done]. intros _. apply exits_well_ret. Qed.

Lemma exits_well_health_check : exits_well w (call (health_check w)).
Proof.
  intros st. destruct (health_check_run w st) as (st' & out & E & _). by rewrite E.
Qed.

End ExitCodes.

Create HintDb sh.
#[export] Hint Resolve exits_well_bind exits_well_ret exits_well_exit_1 exits_well_echo
  exits_well_date exits_well_test_f exits_well_test_d exits_well_command_v
  exits_well_cond exits_well_simple exits_well_if exits_well_when
  exits_well_unless exits_well_health_check : sh.

Lemma exits_well_main (w : World) (arg1 : option string) : exits_well w (main w arg1).
Proof.
  unfold main, check_prerequisites, create_directories, backup_current,
    build_images, deploy_services, cleanup, print_status, print_error.
  auto 40 with sh.
Qed.

Lemma said_app (msg : string) (l1 l2 : list Line) :
  said msg (l1 ++ l2) = said msg l1 || said msg l2.
Proof. apply existsb_app. Qed.

(** A run that goes through all of [main] has announced its success. *)
Lemma success_is_announced (w : World) (arg1 : option string) (st st' : State)
    (out : list Line) :
  main w arg1 st = (Ok tt, st', out) →
  said "Deployment completed successfully!" out = true.
Proof.
  rewrite main_split. unfold bind at 1.
  destruct (until_cutover w arg1 st) as [[[[]|?|?] st1] out1]; [|done..].
  unfold verify_and_finish. unfold bind at 1.
  destruct (health_check_run w st1) as (st2 & out2 & E2 & _). rewrite E2.
  destruct (_ =? 0).
  - rewrite bind_assoc. unfold bind at 1. unfold print_status at 1.
    cbv beta iota zeta delta [bind date echo].
    destruct (cleanup w _) as [[[[]|?|?] st3] out3];
      [destruct (report w st3) as [[? ?] ?]|..];
      intros [= _ _ <-]; rewrite !said_app; simpl;
      by rewrite ?orb_true_r.
  - destruct st2 as [f tr n]. unfold rollback. sh_eval.
    by destruct (status w (Compose COMPOSE_FILE Down) _ =? 0).
Qed.

(** *** The discipline of [set -e] *)

Lemma passed_app (w : World) (n1 : list Cmd) : ∀ (before n2 : list Cmd),
  passed w before n1 → passed w (before ++ n1) n2 → passed w before (n1 ++ n2).
Proof.
  induction n1 as [|c n1 IH]; intros before n2 H1 H2.
  - by rewrite app_nil_r in H2.
  - destruct H1 as [Hc H1]. split; [done|].
    apply IH; [done|]. by rewrite <- app_assoc.
Qed.

Lemma passed_split (w : World) (tr : list Cmd) : ∀ (before : list Cmd) cmd rest,
  passed w before (tr ++ cmd :: rest) → is_condition cmd = false →
  status w cmd (occurrences cmd (before ++ tr)) = 0.
Proof.
  induction tr as [|c tr IH]; intros before cmd rest H Hc.
  - rewrite app_nil_r. by apply H.
  - destruct H as [_ H]. specialize (IH _ _ _ H Hc).
    by rewrite <- app_assoc in IH.
Qed.

Section SetE.

Variable w : World.
Variable may_exit : bool.

Lemma under_set_e_bind {A B} (m : Sh A) (k : A → Sh B) :
  under_set_e w may_exit m → (∀ a, under_set_e w may_exit (k a)) →
  under_set_e w may_exit (bind m k).
Proof.
  intros Hm Hk st. unfold bind. specialize (Hm st).
  destruct (m st) as [[[a|s|c] st1] l1]; [|done..].
  destruct Hm as (n1 & E1 & P1). specialize (Hk a st1).
  destruct (k a st1) as [[r st2] l2]. destruct Hk as (n2 & E2 & P2).
  exists (n1 ++ n2). split; [by rewrite E2, E1, app_assoc|].
  rewrite E1 in P2.
  destruct r as [b|s|c]; [by apply passed_app..|].
  destruct P2 as [(? & ? & P2)|(tr & cmd & -> & P2 & Hc & -> & Hne)].
  - left. repeat split; try done. by apply passed_app.
  - right. exists (n1 ++ tr), cmd. split; [by rewrite app_assoc|].
    split; [by apply passed_app|]. split; [done|].
    split; [by rewrite app_assoc|done].
Qed.

Ltac no_command := intros st; exists []; by rewrite app_nil_r.

Lemma under_set_e_ret {A} (a : A) : under_set_e w may_exit (ret a).
Proof. no_command. Qed.

Lemma under_set_e_return s : under_set_e w may_exit (@return_ unit s).
Proof. no_command. Qed.

Lemma under_set_e_echo l : under_set_e w may_exit (echo l).
Proof. no_command. Qed.

Lemma under_set_e_date fmt : under_set_e w may_exit (date w fmt).
Proof. no_command. Qed.

Lemma under_set_e_test_f path : under_set_e w may_exit (test_f path).
Proof. no_command. Qed.

Lemma under_set_e_test_d path : under_set_e w may_exit (test_d path).
Proof. no_command. Qed.

Lemma under_set_e_command_v tool : under_set_e w may_exit (command_v w tool).
Proof. no_command. Qed.

Lemma under_set_e_cond c : is_condition c = true → under_set_e w may_exit (cond w c).
Proof.
  intros Hc [f tr n]. unfold cond. sh_eval. exists [c].
  split; [done|]. simpl. split; [|done]. congruence.
Qed.

Lemma under_set_e_simple c : is_condition c = false → under_set_e w may_exit (simple w c).
Proof.
  intros Hc [f tr n]. unfold simple. sh_eval.
  destruct (status w c (occurrences c tr) =? 0) eqn:E;
    (exists [c]; split; [done|]).
  - apply Z.eqb_eq in E. by split.
  - apply Z.eqb_neq in E. right. exists [], c. by rewrite app_nil_r.
Qed.

Lemma under_set_e_if {A} (b : bool) (m1 m2 : Sh A) :
  under_set_e w may_exit m1 → under_set_e w may_exit m2 →
  under_set_e w may_exit (if b then m1 else m2).
Proof. by destruct b. Qed.

Lemma under_set_e_when b m : under_set_e w may_exit m → under_set_e w may_exit (when b m).
Proof. destruct b; [done|]. intros _. apply under_set_e_ret. Qed.

Lemma under_set_e_unless b m :
  under_set_e w may_exit m → under_set_e w may_exit (unless b m).
Proof. destruct b; [|done]. intros _. apply under_set_e_ret. Qed.

Lemma under_set_e_call m : under_set_e w may_exit m → under_set_e w may_exit (call m).
Proof.
  intros Hm st. unfold call. specialize (Hm st).
  by destruct (m st) as [[[a|s|c] st1] l1].
Qed.

End SetE.

(** The script's own [exit 1]. *)
Lemma under_set_e_exit_1 (w : World) {A} : under_set_e w true (@exit A 1).
Proof. intros st. exists []. rewrite app_nil_r. split; [done|]. by left. Qed.

Create HintDb set_e.
#[export] Hint Resolve under_set_e_bind under_set_e_ret under_set_e_return
  under_set_e_echo under_set_e_date under_set_e_test_f under_set_e_test_d
  under_set_e_command_v under_set_e_cond under_set_e_simple under_set_e_if
  under_set_e_when under_set_e_unless under_set_e_call under_set_e_exit_1 : set_e.

Lemma under_set_e_main (w : World) (arg1 : option string) :
  under_set_e w true (main w arg1).
Proof.
  unfold main, check_prerequisites, create_directories, backup_current,
    build_images, deploy_services, health_check, cleanup, print_status, print_error.
  auto 40 with set_e.
Qed.

Lemma under_set_e_stages (w : World) : under_set_e w false (stages w).
Proof.
  unfold stages, create_directories, backup_current, build_images,
    deploy_services, print_status.
  auto 40 with set_e.
Qed.

Lemma under_set_e_finish (w : World) : under_set_e w false (finish w).
Proof.
  unfold finish, cleanup, report, print_status.
  auto 40 with set_e.
Qed.

(** With every prerequisite in place, the check goes through and leaves
    the trace and the file system as they were. *)
Lemma prerequisites_pass (w : World) (arg1 : option string) (st : State) :
  ¬ prerequisite_missing w st →
  ∃ st0 out0,
    ops st0 = ops st ∧ fs st0 = fs st ∧
    ∀ K : Sh unit,
      (print_status w ("Starting deployment for environment: " +:+ ENVIRONMENT arg1) ;;
       check_prerequisites w ;; K) st =
      (let '(r, st', out) := K st0 in (r, st', out0 ++ out)).
Proof.
  intros Hok. destruct st as [[files dirs backups] tr n].
  unfold prerequisite_missing in Hok. cbn [fs fs_files] in Hok.
  exists (MkState (MkFileSys files dirs backups) tr (S (S (S n)))).
  exists [Status (fmt_stamp (clock w n))
            ("Starting deployment for environment: " +:+ ENVIRONMENT arg1);
          Status (fmt_stamp (clock w (S n))) "Checking prerequisites...";
          Status (fmt_stamp (clock w (S (S n)))) "Prerequisites check passed"].
  split; [done|]. split; [done|]. intros K.
  unfold check_prerequisites. sh_eval.
  destruct (installed w "docker"); [|tauto].
  destruct (installed w "docker-compose"); [|tauto].
  destruct (bool_decide (is_Some (files !! ENV_FILE))) eqn:E1.
  2: { apply bool_decide_eq_false_1 in E1. destruct (files !! ENV_FILE) eqn:E; [|tauto].
       destruct E1. by eexists. }
  destruct (bool_decide (is_Some (files !! COMPOSE_FILE))) eqn:E2.
  2: { apply bool_decide_eq_false_1 in E2. destruct (files !! COMPOSE_FILE) eqn:E; [|tauto].
       destruct E2. by eexists. }
  sh_eval. by destruct (K _) as [[r st'] out].
Qed.

(** [verify_and_finish] after a health check that has passed. *)
Lemma finish_run (w : World) (st1 st2 : State) (out2 : list Line) :
  call (health_check w) st1 = (Ok 0, st2, out2) →
  verify_and_finish w st1 =
    (let '(r, st', out) := finish w st2 in (r, st', out2 ++ out)).
Proof.
  intros E. unfold verify_and_finish, finish. unfold bind at 1. by rewrite E.
Qed.

(** The ways a run with every prerequisite in place can end: in a command
    that failed outside a condition, with the status of this command; in
    the rollback; or with exit code 0. *)
Lemma run_cases (w : World) (arg1 : option string) (st : State) :
  ¬ prerequisite_missing w st →
  let r := script w arg1 st in
  (∃ tr cmd,
     ops (final r) = ops st ++ tr ++ [cmd] ∧
     is_condition cmd = false ∧
     exit_code r = status w cmd (occurrences cmd (ops st ++ tr)) ∧
     exit_code r ≠ 0) ∨
  (∃ st1 st2 out1 out2 health,
     until_cutover w arg1 st = (Ok tt, st1, out1) ∧
     call (health_check w) st1 = (Ok health, st2, out2) ∧ health ≠ 0) ∨
  exit_code r = 0.
Proof.
  intros Hok. cbv zeta.
  destruct (prerequisites_pass w arg1 st Hok) as (st0 & out0 & Hops0 & _ & Hrun).
  assert (Hcut : until_cutover w arg1 st =
                 (let '(r, st', out) := stages w st0 in (r, st', out0 ++ out)))
    by apply Hrun.
  pose proof (exits_well_main w arg1 st) as Hwell.
  destruct (script w arg1 st) as [[code stf] outf] eqn:Er.
  cbn [exit_code final fst snd]. revert Er.
  unfold script. rewrite main_split in Hwell |- *.
  unfold bind at 1 in Hwell. unfold bind at 1. rewrite Hcut in Hwell |- *.
  pose proof (under_set_e_stages w st0) as H1.
  destruct (stages w st0) as [[[[]|s|c] st1] out1]; [|done|].
  - destruct H1 as (n1 & E1 & _).
    destruct (health_check_run w st1) as (st2 & out2 & E2 & Hops2 & _).
    destruct (forallb _ CHECKS).
    + rewrite (finish_run _ _ _ _ E2) in Hwell |- *.
      pose proof (under_set_e_finish w st2) as H3.
      destruct (finish w st2) as [[[[]|s|c] st3] out3]; [|done|].
      { intros [= <- <- <-]. by right; right. }
      intros [= <- <- <-]. left.
      destruct H3 as (n3 & E3 & [(? & _)|(tr & cmd & -> & _ & Hc & -> & Hne)]); [done|].
      exists (n1 ++ ((λ c, Curl c.2) <$> probed (healthy w st1) CHECKS) ++ tr), cmd.
      rewrite E3, Hops2, E1, Hops0, <- !app_assoc.
      rewrite Hops2, E1, Hops0, <- !app_assoc in Hne. done.
    + intros _. right. left. by exists st1, st2, (out0 ++ out1), out2, 1.
  - intros [= <- <- <-]. left.
    destruct H1 as (n1 & E1 & [(? & _)|(tr & cmd & -> & _ & Hc & -> & Hne)]); [done|].
    exists tr, cmd. rewrite E1, Hops0. by rewrite Hops0 in Hne.
Qed.

(** C5 (as the script has it). The exit code is 0 exactly when the run
    goes through all of [main], and such a run has announced its success.
    Every other run ends with a non-zero exit code, which is 1 or the
    status of the command the run ended on.  It is 1 when a prerequisite
    is missing, and when the health check fails and the teardown succeeds.
    A run only adds commands to the trace, and a command of the run that
    fails outside the condition of an [if] (a [mkdir], a command of the
    backup, the build, a command of the cutover, the teardown, a command
    of the cleanup, the final [docker-compose ps]) is the last command of
    the run, and its status is the exit code.  When no such command has
    failed, the exit code is 0 or 1, and it is 1 only when a prerequisite
    is missing or the health check has failed. *)
Theorem exit_code_cases (w : World) (arg1 : option string) (st : State) :
  let r := script w arg1 st in
  let new := drop (length (ops st)) (ops (final r)) in
  (exit_code r = 0 ↔ ∃ st' out, main w arg1 st = (Ok tt, st', out)) ∧
  (exit_code r = 0 → terminal (output r) = Succeeded) ∧
  (exit_code r ≠ 0 →
   exit_code r = 1 ∨
   ∃ tr cmd, ops (final r) = tr ++ [cmd] ∧
             exit_code r = status w cmd (occurrences cmd tr)) ∧
  (prerequisite_missing w st → exit_code r = 1) ∧
  (∀ st1 st2 out1 out2 health,
     until_cutover w arg1 st = (Ok tt, st1, out1) →
     call (health_check w) st1 = (Ok health, st2, out2) →
     health ≠ 0 →
     status w (Compose COMPOSE_FILE Down)
       (occurrences (Compose COMPOSE_FILE Down) (ops st2)) = 0 →
     exit_code r = 1) ∧
  ops (final r) = ops st ++ new ∧
  (∀ tr cmd rest,
     new = tr ++ cmd :: rest →
     is_condition cmd = false →
     status w cmd (occurrences cmd (ops st ++ tr)) ≠ 0 →
     rest = [] ∧ exit_code r = status w cmd (occurrences cmd (ops st ++ tr))) ∧
  (passed w (ops st) new → exit_code r = 0 ∨ exit_code r = 1) ∧
  (exit_code r = 1 → passed w (ops st) new →
   prerequisite_missing w st ∨
   ∃ st1 st2 out1 out2 health,
     until_cutover w arg1 st = (Ok tt, st1, out1) ∧
     call (health_check w) st1 = (Ok health, st2, out2) ∧ health ≠ 0).
Proof.
  intros r new.
  assert (Hzero : exit_code r = 0 ↔ ∃ st' out, main w arg1 st = (Ok tt, st', out)).
  { subst r. unfold script. pose proof (exits_well_main w arg1 st) as Hw.
    destruct (main w arg1 st) as [[[[]|s|c] st'] out];
      cbn [exit_code fst snd]; [|done|].
    - split; eauto.
    - destruct Hw as [Hc _]. split; [done|]. by intros (? & ? & [=]). }
  assert (Hrun : ∃ new', ops (final r) = ops st ++ new' ∧
            ((exit_code r = 0 ∨ exit_code r = 1) ∧ passed w (ops st) new' ∨
             ∃ tr cmd, new' = tr ++ [cmd] ∧ passed w (ops st) tr ∧
               is_condition cmd = false ∧
               exit_code r = status w cmd (occurrences cmd (ops st ++ tr)) ∧
               exit_code r ≠ 0)).
  { subst r new. unfold script.
    pose proof (under_set_e_main w arg1 st) as Hm.
    pose proof (exits_well_main w arg1 st) as Hw.
    destruct (main w arg1 st) as [[[[]|s|c] st'] out]; [|done|];
      cbn [exit_code final fst snd]; destruct Hm as (new' & E & Hm);
      exists new'; (split; [done|]).
    - left. split; [by left|done].
    - destruct Hm as [(_ & -> & Hm)|(tr & cmd & -> & ? & ? & -> & ?)].
      + left. split; [by right|done].
      + right. by exists tr, cmd. }
  destruct Hrun as (new' & Hops & Hrun).
  assert (new = new') as Hnew by (subst new; by rewrite Hops, drop_app_length).
  rewrite Hnew. clear new Hnew.
  split; [exact Hzero|]. split; [|split; [|split; [|split]]].
  - intros (st' & out & E)%Hzero. subst r. unfold script, terminal. rewrite E.
    cbn [output snd]. by rewrite (success_is_announced _ _ _ _ _ E).
  - subst r. unfold script. pose proof (exits_well_main w arg1 st) as Hw.
    destruct (main w arg1 st) as [[[[]|s|c] st'] out];
      cbn [exit_code final fst snd]; [done|done|].
    intros _. apply Hw.
  - intros Hmiss. subst r.
    destruct (prerequisite_run w arg1 st Hmiss) as (n & s1 & s2 & msg & E).
    by rewrite E.
  - intros st1 st2 out1 out2 health E1 E2 Hh Hdown. subst r.
    rewrite (rollback_run _ _ _ _ _ _ _ _ E1 E2 Hh), Hdown. reflexivity.
  - split; [exact Hops|]. split; [|split].
    + intros tr cmd rest -> Hc Hs.
      destruct Hrun as [[_ Hp]|(tr' & cmd' & E & Hp & _ & Hcode & _)].
      { destruct Hs. by eapply passed_split. }
      destruct rest as [|c rest _] using rev_ind.
      * apply app_inj_tail in E as [-> ->]. by split.
      * change (tr ++ cmd :: rest ++ [c]) with (tr ++ (cmd :: rest) ++ [c]) in E.
        rewrite app_assoc in E. apply app_inj_tail in E as [<- _].
        destruct Hs. by eapply passed_split.
    + intros Hp. destruct Hrun as [[? _]|(tr & cmd & -> & _ & Hc & Hcode & Hne)]; [done|].
      destruct Hne. rewrite Hcode. by eapply passed_split.
    + intros Hone Hp.
      destruct (decide (prerequisite_missing w st)) as [?|Hok]; [by left|right].
      destruct (run_cases w arg1 st Hok) as [(tr & cmd & E & Hc & Hcode & Hne)|[?|?]];
        [|done|fold r in H; congruence].
      fold r in E, Hcode, Hne. rewrite Hops in E. apply app_inv_head in E as ->.
      destruct Hne. rewrite Hcode. by eapply passed_split.
Qed.

(** C5, as stated, fails: when the build exits with 17, so does the
    script, in a run that ends in the build. *)
Lemma exit_code_claim_fails : ¬ exit_code_claim.
Proof.
  intros H.
  destruct (H (failing (Compose COMPOSE_FILE Build) 0 17) None (start site))
    as [_ Hone].
  assert (Hcode : exit_code (script (failing (Compose COMPOSE_FILE Build) 0 17)
                               None (start site)) = 1).
  { apply Hone. vm_compute. discriminate. }
  vm_compute in Hcode. discriminate Hcode.
Qed.

(** * Further properties of the script *)

(** ** More on retention *)

Lemma ls_t_length (w : World) (d : gmap string Backup) : length (ls_t w d) = size d.
Proof.
  unfold ls_t. rewrite length_fmap, merge_sort_Permutation. apply length_map_to_list.
Qed.

(** Up to five entries: nothing is removed. *)
Lemma prune_old_small (w : World) (d : gmap string Backup) :
  plain_names d → (size d ≤ 5)%nat → prune_old w d = d.
Proof.
  intros Hp H. rewrite prune_old_plain by done.
  rewrite drop_ge; [done|]. rewrite ls_t_length. lia.
Qed.

Lemma plain_names_subseteq (d d' : gmap string Backup) :
  d' ⊆ d → plain_names d → plain_names d'.
Proof.
  intros Hsub Hp k [b Hb]. apply Hp. exists b. by eapply lookup_weaken.
Qed.

Lemma plain_names_seven_backups : plain_names seven_backups.
Proof.
  intros k [b Hb]. apply elem_of_list_to_map_2 in Hb.
  repeat (apply elem_of_cons in Hb as [[= -> _]|Hb]; [reflexivity|]).
  by apply elem_of_nil in Hb.
Defined.

(** X16. In a directory of plain names, the prune pipeline removes nothing
    when there are at most five entries, and running it a second time
    removes nothing more. *)
Theorem prune_old_settles (w : World) (d : gmap string Backup) :
  collation w → plain_names d →
  ((size d ≤ 5)%nat → prune_old w d = d) ∧
  prune_old w (prune_old w d) = prune_old w d.
Proof.
  intros Hc Hp. split; [by apply prune_old_small|].
  apply prune_old_small.
  - eapply plain_names_subseteq; [|done]. by apply prune_old_subseteq.
  - rewrite (prune_old_size w) by done. lia.
Qed.

Lemma prune_old_settles_witness :
  prune_old calm (prune_old calm seven_backups) = prune_old calm seven_backups.
Proof.
  apply (prune_old_settles calm seven_backups).
  - apply collation_world_with.
  - apply plain_names_seven_backups.
Defined.

(** X17. In a directory of plain names, the entry that was modified after
    every other entry is never removed by the prune pipeline. *)
Theorem prune_old_keeps_newest (w : World) (d : gmap string Backup) (k : string) (b : Backup) :
  collation w →
  plain_names d →
  d !! k = Some b →
  (∀ k' b', d !! k' = Some b' → k' ≠ k → b_mtime b' < b_mtime b) →
  prune_old w d !! k = Some b.
Proof.
  intros Hc Hp Hk Hnew.
  destruct (prune_old w d !! k) as [b0|] eqn:E.
  - f_equal. pose proof (prune_old_subseteq w d Hp) as Hsub.
    eapply lookup_weaken in E; [|exact Hsub]. congruence.
  - exfalso.
    assert (Hpos : (0 < size (prune_old w d))%nat).
    { rewrite prune_old_size by done. assert (size d ≠ 0%nat); [|lia].
      intros H0. apply map_size_empty_inv in H0. subst d. by rewrite lookup_empty in Hk. }
    destruct (map_choose (prune_old w d)) as (k1 & b1 & E1).
    { intros He. rewrite He, map_size_empty in Hpos. lia. }
    pose proof (prune_old_newest w Hc d k1 k b1 b Hp E1 Hk E) as Hle.
    assert (Hd1 : d !! k1 = Some b1).
    { eapply lookup_weaken; [exact E1|by apply prune_old_subseteq]. }
    assert (k1 ≠ k) by congruence.
    specialize (Hnew k1 b1 Hd1 ltac:(done)). lia.
Qed.

Lemma prune_old_keeps_newest_witness :
  prune_old calm seven_backups !! "backup_20240307_110000" = Some (old_backup 7).
Proof.
  apply (prune_old_keeps_newest calm seven_backups).
  - apply collation_world_with.
  - apply plain_names_seven_backups.
  - vm_compute. reflexivity.
  - intros k' b' H Hne. apply elem_of_list_to_map_2 in H.
    repeat (apply elem_of_cons in H as [[= -> ->]|H];
            [first [by destruct Hne | vm_compute; reflexivity]|]).
    by apply elem_of_nil in H.
Defined.

(** ** Time stamps and names *)

(** X8. The time stamps of [print_status] compare, as strings, the way the
    readings of the clock compare, for years of at most four digits: the
    lines of a log sort by time. *)
Theorem stamp_order (a b : tm) :
  valid_tm a → valid_tm b →
  String.compare (fmt_stamp a) (fmt_stamp b) = tm_compare a b.
Proof.
  intros (Hy1 & Hm1 & Hd1 & Hh1 & Hi1 & Hs1) (Hy2 & Hm2 & Hd2 & Hh2 & Hi2 & Hs2).
  unfold fmt_stamp, tm_compare.
  rewrite fmt_Y_compare by done. rewrite compare_same_head.
  do 2 (rewrite fmt_2_compare by lia; rewrite compare_same_head).
  do 2 (rewrite fmt_2_compare by lia; rewrite compare_same_head).
  rewrite fmt_2_compare by lia.
  simpl. by destruct (tm_sec a ?= tm_sec b)%N.
Qed.

Lemma stamp_order_witness :
  String.compare (fmt_stamp noon) (fmt_stamp (Tm 2024 11 30 0 0 0)) = Lt.
Proof.
  rewrite (stamp_order noon (Tm 2024 11 30 0 0 0)).
  - reflexivity.
  - unfold valid_tm. simpl. lia.
  - unfold valid_tm. simpl. lia.
Defined.




Lemma compare_refl (s : string) : String.compare s s = Eq.
Proof.
  induction s as [|c s IH]; [done|]. by rewrite compare_same_head.
Qed.



(** ** The stages, one by one *)

(** X9. The cutover runs [down], [up -d] and [sleep 10] in this order and
    stops at the first of them that fails, with its status; it prints no
    error line and does not change the file system. *)
Theorem cutover_stops_at_first_failure (w : World) (st : State) :
  ∃ st' out,
    deploy_services w st = (outcome w st CUTOVER_COMMANDS, st', out) ∧
    ops st' = ops st ++ attempted (succeeds w st) CUTOVER_COMMANDS ∧
    fs st' = fs st ∧
    List.filter is_error out = [].
Proof.
  destruct st as [f tr n].
  unfold deploy_services, outcome, succeeds, CUTOVER_COMMANDS.
  simpl attempted. simpl List.find. cbn [ops]. sh_eval.
  destruct (status w (Compose COMPOSE_FILE Down) _ =? 0) eqn:E1; sh_eval;
    [|do 2 eexists; split; [reflexivity|]; by rewrite <- ?app_assoc].
  destruct (status w (Compose COMPOSE_FILE Up) _ =? 0) eqn:E2; sh_eval;
    [|do 2 eexists; split; [reflexivity|]; by rewrite <- ?app_assoc].
  destruct (status w Sleep10 _ =? 0) eqn:E3; sh_eval;
    do 2 eexists; (split; [reflexivity|]); by rewrite <- ?app_assoc.
Qed.

(** X2. [create_directories] makes the five directories in its order and
    stops at the first [mkdir] that fails, with its status, without an
    error line. *)
Theorem create_directories_stops_at_first_failure (w : World) (st : State) :
  ∃ st' out,
    create_directories w st = (outcome w st MKDIR_COMMANDS, st', out) ∧
    ops st' = ops st ++ attempted (succeeds w st) MKDIR_COMMANDS ∧
    List.filter is_error out = [].
Proof.
  destruct st as [[files dirs backups] tr n].
  unfold create_directories, outcome, succeeds, MKDIR_COMMANDS, REQUIRED_DIRS.
  simpl attempted. simpl List.find. cbn [ops]. sh_eval.
  destruct (status w (MkdirP BACKUP_DIR) _ =? 0) eqn:E1; sh_eval;
    [|do 2 eexists; split; [reflexivity|]; by rewrite <- ?app_assoc].
  destruct (status w (MkdirP (LOG_DIR +:+ "/nginx")) _ =? 0) eqn:E2; sh_eval;
    [|do 2 eexists; split; [reflexivity|]; by rewrite <- ?app_assoc].
  destruct (status w (MkdirP (LOG_DIR +:+ "/main-api")) _ =? 0) eqn:E3; sh_eval;
    [|do 2 eexists; split; [reflexivity|]; by rewrite <- ?app_assoc].
  destruct (status w (MkdirP (LOG_DIR +:+ "/scraper-api")) _ =? 0) eqn:E4; sh_eval;
    [|do 2 eexists; split; [reflexivity|]; by rewrite <- ?app_assoc].
  destruct (status w (MkdirP "./ssl") _ =? 0) eqn:E5; sh_eval;
    do 2 eexists; (split; [reflexivity|]); by rewrite <- ?app_assoc.
Qed.




(** X1. [check_prerequisites] reports the first prerequisite that is
    missing, in the order docker, docker-compose, environment file,
    compose file, and only that one; it exits with 1 then, goes on
    otherwise, and in both cases runs no command and leaves the file
    system alone. *)
Theorem check_prerequisites_reports_first (w : World) (st : State) :
  ∃ r n out,
    check_prerequisites w st = (r, MkState (fs st) (ops st) n, out) ∧
    r = match first_missing w st with Some _ => Exit 1 | None => Ok tt end ∧
    List.filter is_error out =
      match first_missing w st with Some msg => [Error msg] | None => [] end.
Proof.
  destruct st as [[files dirs backups] tr n].
  unfold check_prerequisites, first_missing. cbn [fs fs_files ops]. sh_eval.
  destruct (installed w "docker"); [|simpl; eauto 10].
  destruct (installed w "docker-compose"); [|simpl; eauto 10].
  destruct (bool_decide (is_Some (files !! ENV_FILE))); [|simpl; eauto 10].
  destruct (bool_decide (is_Some (files !! COMPOSE_FILE))); simpl; eauto 10.
Qed.

Lemma made_backup_lookup (d : gmap string Backup) (name : string) (b0 : Backup) :
  ∃ b, match d !! name with Some _ => d | None => <[name := b0]> d end !! name = Some b ∧
       (d !! name = None → b = b0) ∧ (∀ b1, d !! name = Some b1 → b = b1).
Proof.
  destruct (d !! name) as [b1|] eqn:E.
  - exists b1. split; [done|]. split; [done|]. by intros ? [= ->].
  - exists b0. rewrite lookup_insert_eq. by split.
Qed.

Lemma made_backup_dom (d : gmap string Backup) (name : string) (b0 : Backup) :
  dom (match d !! name with Some _ => d | None => <[name := b0]> d end) = {[name]} ∪ dom d.
Proof.
  destruct (d !! name) as [b1|] eqn:E.
  - apply elem_of_dom_2 in E. apply set_eq. intros x.
    rewrite elem_of_union, elem_of_singleton. split; [by right|].
    by intros [->|?].
  - by rewrite dom_insert_L.
Qed.

Lemma made_backup_other (d : gmap string Backup) (name k : string) (b0 : Backup) :
  k ≠ name →
  match d !! name with Some _ => d | None => <[name := b0]> d end !! k = d !! k.
Proof.
  intros Hk. destruct (d !! name); [done|]. by rewrite lookup_insert_ne.
Qed.

(** X5. A [backup_current] that goes through while the environment file
    is there leaves a backup of its name that holds the content the file
    has at that moment, and the container list when containers are
    running; it changes no file of the working directory and no other
    backup. *)
Theorem backup_copies_by_value (w : World) (st st' : State) (out : list Line)
    (content : string) :
  let name := BACKUP_NAME (clock w (S (dates st))) in
  backup_current w st = (Ok tt, st', out) →
  fs_files (fs st) !! ENV_FILE = Some content →
  (∃ b, fs_backups (fs st') !! name = Some b ∧ b_env b = Some content ∧
        b_docker_ps b =
          (if succeeds w st DockerPsQuiet then Some (docker_ps_out w)
           else fs_backups (fs st) !! name ≫= b_docker_ps)) ∧
  fs_files (fs st') = fs_files (fs st) ∧
  dom (fs_backups (fs st')) = {[name]} ∪ dom (fs_backups (fs st)) ∧
  (∀ k, k ≠ name → fs_backups (fs st') !! k = fs_backups (fs st) !! k).
Proof.
  destruct st as [[files dirs backups] tr n]. intros name.
  unfold succeeds. cbn [fs ops dates fs_files fs_backups] in *. intros E Henv. revert E.
  assert (Hyes : bool_decide (is_Some (files !! ENV_FILE)) = true).
  { apply bool_decide_eq_true_2. by rewrite Henv. }
  unfold backup_current. sh_eval. fold (BACKUP_NAME (clock w (S n))). fold name.
  destruct (status w (MkdirBackup name) _ =? 0) eqn:Em; sh_eval; fold name; [|done].
  set (b0 := MkBackup (fs_clock w (length tr)) None None).
  destruct (made_backup_lookup backups name b0) as (b & Hb & Hnew & Hold).
  destruct (status w DockerPsQuiet _ =? 0) eqn:E1; sh_eval; fold name.
  - destruct (status w (DockerPsAll name) _ =? 0) eqn:E2; sh_eval; fold name; [|done].
    rewrite Hyes. sh_eval. fold name.
    destruct (status w (CpEnv name) _ =? 0) eqn:E3; sh_eval; fold name; [|done].
    rewrite Henv. intros [= <- <-]. cbn [fs fs_files fs_backups].
    split; [|split; [done|split]].
    + rewrite !lookup_alter_eq. fold b0. rewrite Hb. simpl. eauto.
    + rewrite !dom_alter_L. apply made_backup_dom.
    + intros k Hk. rewrite !lookup_alter_ne by done. by apply made_backup_other.
  - rewrite Hyes. sh_eval. fold name.
    destruct (status w (CpEnv name) _ =? 0) eqn:E3; sh_eval; fold name; [|done].
    rewrite Henv. intros [= <- <-]. cbn [fs fs_files fs_backups].
    split; [|split; [done|split]].
    + rewrite !lookup_alter_eq. fold b0. rewrite Hb. simpl.
      eexists. split; [done|]. split; [done|]. simpl.
      destruct (backups !! name) as [b1|] eqn:Eb.
      * by rewrite (Hold b1).
      * by rewrite Hnew.
    + rewrite !dom_alter_L. apply made_backup_dom.
    + intros k Hk. rewrite !lookup_alter_ne by done. by apply made_backup_other.
Qed.

Lemma backup_copies_by_value_witness :
  ∃ b, fs_backups (fs (backup_current calm (start site)).1.2) !! BACKUP_NAME noon = Some b ∧
       b_env b = Some "KEY=value".
Proof.
  assert (E : backup_current calm (start site) =
              (Ok tt, (backup_current calm (start site)).1.2,
               (backup_current calm (start site)).2))
    by (vm_compute; reflexivity).
  destruct (backup_copies_by_value calm _ _ _ "KEY=value" E) as [(b & Hb & He & _) _].
  - vm_compute. reflexivity.
  - exists b. split; [exact Hb|exact He].
Defined.

(** ** What a run leaves alone *)

Lemma occurrences_app (c : Cmd) (l1 l2 : list Cmd) :
  occurrences c (l1 ++ l2) = (occurrences c l1 + occurrences c l2)%nat.
Proof. unfold occurrences. by rewrite filter_app, length_app. Qed.

Lemma grows_refl st : grows st st.
Proof. by repeat split. Qed.

Lemma grows_trans st1 st2 st3 : grows st1 st2 → grows st2 st3 → grows st1 st3.
Proof.
  intros ([l1 H1] & Hf1 & Hd1 & Hb1) ([l2 H2] & Hf2 & Hd2 & Hb2).
  split; [by etrans; [exists l1|exists l2]|].
  split; [congruence|]. split; [by etrans|].
  rewrite H2, H1, !occurrences_app in *. intros Ho.
  etrans; [apply Hb1|apply Hb2]; lia.
Qed.

Section Frame.

Variable w : World.

Lemma keeps_bind {A B} (m : Sh A) (k : A → Sh B) :
  keeps m → (∀ a, keeps (k a)) → keeps (bind m k).
Proof.
  intros Hm Hk st. unfold bind. specialize (Hm st).
  destruct (m st) as [[[a|s|c] st1] l1]; [|done..].
  specialize (Hk a st1). destruct (k a st1) as [[r st2] l2]. simpl in *.
  by eapply grows_trans.
Qed.

Lemma keeps_exec c : keeps (exec w c).
Proof.
  intros [[files dirs backups] tr n]. unfold grows, exec.
  cbn [fst snd fs ops fs_files fs_dirs fs_backups].
  split; [by apply prefix_app_r|].
  destruct (_ =? 0); [|split; [done|split; [done|]]; by intros _].
  destruct c; cbn [effect fs ops fs_files fs_dirs fs_backups];
    try (split; [done|split; [done|]]; by intros _).
  - split; [done|]. split; [apply union_subseteq_r|done].
  - split; [done|]. split; [apply union_subseteq_r|]. intros _.
    destruct (backups !! name); [done|]. rewrite dom_insert_L. apply union_subseteq_r.
  - split; [done|]. split; [done|]. intros _. by rewrite dom_alter_L.
  - destruct (files !! ENV_FILE); cbn [fs_files fs_dirs fs_backups];
      (split; [done|]; split; [done|]; intros _); [by rewrite dom_alter_L|done].
  - split; [done|]. split; [done|]. rewrite occurrences_app. simpl.
    unfold occurrences at 2. rewrite filter_cons_True by done. simpl. lia.
Qed.

Lemma keeps_ret {A} (a : A) : keeps (ret a).
Proof. intros st. apply grows_refl. Qed.

Lemma keeps_exit {A} c : keeps (@exit A c).
Proof. intros st. apply grows_refl. Qed.

Lemma keeps_return {A} s : keeps (@return_ A s).
Proof. intros st. apply grows_refl. Qed.

Lemma keeps_echo l : keeps (echo l).
Proof. intros st. apply grows_refl. Qed.

Lemma keeps_date fmt : keeps (date w fmt).
Proof. intros st. by repeat split. Qed.

Lemma keeps_test_f path : keeps (test_f path).
Proof. intros st. apply grows_refl. Qed.

Lemma keeps_test_d path : keeps (test_d path).
Proof. intros st. apply grows_refl. Qed.

Lemma keeps_command_v tool : keeps (command_v w tool).
Proof. intros st. apply grows_refl. Qed.

Lemma keeps_if {A} (b : bool) (m1 m2 : Sh A) :
  keeps m1 → keeps m2 → keeps (if b then m1 else m2).
Proof. by destruct b. Qed.

Lemma keeps_when b m : keeps m → keeps (when b m).
Proof. destruct b; [done|]. intros _. apply keeps_ret. Qed.

Lemma keeps_unless b m : keeps m → keeps (unless b m).
Proof. destruct b; [|done]. intros _. apply keeps_ret. Qed.

Lemma keeps_call body : keeps body → keeps (call body).
Proof.
  intros H st. unfold call. specialize (H st).
  by destruct (body st) as [[[a|s|c] st1] l1].
Qed.

End Frame.

Create HintDb frame.
#[export] Hint Resolve keeps_bind keeps_exec keeps_ret keeps_exit keeps_return
  keeps_echo keeps_date keeps_test_f keeps_test_d keeps_command_v keeps_if
  keeps_when keeps_unless keeps_call : frame.

Lemma keeps_main (w : World) (arg1 : option string) : keeps (main w arg1).
Proof.
  unfold main, check_prerequisites, create_directories, backup_current,
    build_images, deploy_services, health_check, cleanup, print_status,
    print_error, simple, cond.
  auto 60 with frame.
Qed.

(** X13. Whatever happens in a run, it only adds to the trace of commands,
    removes no directory, removes no backup unless the prune pipeline has
    run, and none of its commands writes to the regular files of the
    working directory (the environment file and the compose file). *)
Theorem run_never_loses_files (w : World) (arg1 : option string) (st : State) :
  let r := script w arg1 st in
  ops st `prefix_of` ops (final r) ∧
  fs_files (fs (final r)) = fs_files (fs st) ∧
  fs_dirs (fs st) ⊆ fs_dirs (fs (final r)) ∧
  (occurrences PruneOld (ops (final r)) = occurrences PruneOld (ops st) →
   dom (fs_backups (fs st)) ⊆ dom (fs_backups (fs (final r)))).
Proof.
  pose proof (keeps_main w arg1 st) as H. unfold script.
  by destruct (main w arg1 st) as [[[[]|s|c] st'] out].
Qed.

Section Avoid.

Variable w : World.
Variable c : Cmd.

Lemma avoids_bind {A B} (m : Sh A) (k : A → Sh B) :
  avoids c m → (∀ a, avoids c (k a)) → avoids c (bind m k).
Proof.
  intros Hm Hk st. unfold bind. specialize (Hm st).
  destruct (m st) as [[[a|s|x] st1] l1]; [|done..].
  specialize (Hk a st1). destruct (k a st1) as [[r st2] l2]. simpl in *. congruence.
Qed.

Lemma avoids_exec c' : c' ≠ c → avoids c (exec w c').
Proof. intros Hne st. simpl. by apply occurrences_snoc_ne. Qed.

Lemma avoids_ret {A} (a : A) : avoids c (ret a).
Proof. by intros st. Qed.
Lemma avoids_exit {A} x : avoids c (@exit A x).
Proof. by intros st. Qed.
Lemma avoids_return {A} s : avoids c (@return_ A s).
Proof. by intros st. Qed.
Lemma avoids_echo l : avoids c (echo l).
Proof. by intros st. Qed.
Lemma avoids_date fmt : avoids c (date w fmt).
Proof. by intros st. Qed.
Lemma avoids_test_f path : avoids c (test_f path).
Proof. by intros st. Qed.
Lemma avoids_test_d path : avoids c (test_d path).
Proof. by intros st. Qed.
Lemma avoids_command_v tool : avoids c (command_v w tool).
Proof. by intros st. Qed.
Lemma avoids_if {A} (b : bool) (m1 m2 : Sh A) :
  avoids c m1 → avoids c m2 → avoids c (if b then m1 else m2).
Proof. by destruct b. Qed.
Lemma avoids_when b m : avoids c m → avoids c (when b m).
Proof. destruct b; [done|]. intros _. apply avoids_ret. Qed.
Lemma avoids_unless b m : avoids c m → avoids c (unless b m).
Proof. destruct b; [|done]. intros _. apply avoids_ret. Qed.
Lemma avoids_call body : avoids c body → avoids c (call body).
Proof.
  intros H st. unfold call. specialize (H st).
  by destruct (body st) as [[[a|s|x] st1] l1].
Qed.

End Avoid.

Create HintDb avoid.
#[export] Hint Resolve avoids_bind avoids_exec avoids_ret avoids_exit avoids_return
  avoids_echo avoids_date avoids_test_f avoids_test_d avoids_command_v avoids_if
  avoids_when avoids_unless avoids_call : avoid.
#[export] Hint Extern 1 (_ ≠ _) => congruence : avoid.

Ltac avoid_tac :=
  unfold until_cutover, until_build, rollback, check_prerequisites, create_directories,
    backup_current, build_images, deploy_services, health_check, print_status,
    print_error, simple, cond;
  auto 60 with avoid.

Lemma until_cutover_no_prune (w : World) (arg1 : option string) :
  avoids PruneOld (until_cutover w arg1).
Proof. avoid_tac. Qed.

Lemma health_check_no_prune (w : World) : avoids PruneOld (call (health_check w)).
Proof. avoid_tac. Qed.

Lemma rollback_no_prune (w : World) : avoids PruneOld (rollback w).
Proof. avoid_tac. Qed.

(** Backups are pruned only after the success of the deployment has been
    announced. *)
Lemma prune_only_after_success (w : World) (arg1 : option string) (st : State) :
  let r := script w arg1 st in
  said "Deployment completed successfully!" (output r) = false →
  occurrences PruneOld (ops (final r)) = occurrences PruneOld (ops st).
Proof.
  cbv zeta. destruct (script w arg1 st) as [[code stf] outf] eqn:Er.
  cbn [output final fst snd]. revert Er.
  unfold script. rewrite main_split. unfold bind at 1.
  pose proof (until_cutover_no_prune w arg1 st) as H1.
  destruct (until_cutover w arg1 st) as [[[[]|?|?] st1] out1];
    cbn [fst snd] in H1; [|by intros [= <- <- <-]..].
  unfold verify_and_finish. unfold bind at 1.
  pose proof (health_check_no_prune w st1) as H2.
  destruct (health_check_run w st1) as (st2 & out2 & E2 & _).
  rewrite E2 in H2 |- *. cbn [fst snd] in H2.
  destruct (_ =? 0).
  - rewrite bind_assoc. unfold bind at 1. unfold print_status at 1.
    cbv beta iota zeta delta [bind date echo].
    destruct (cleanup w _) as [[[[]|?|?] st3] out3];
      [destruct (report w st3) as [[[[]|?|?] ?] ?]|..];
      intros [= <- <- <-]; rewrite !said_app; simpl;
      by rewrite ?orb_true_r.
  - pose proof (rollback_no_prune w st2) as H3.
    unfold bind at 1.
    destruct (rollback w st2) as [[[[]|?|?] st3] out3] eqn:E3; cbn [fst snd] in H3.
    + exfalso. revert E3. destruct st2 as [f tr n]. unfold rollback. sh_eval.
      by destruct (status w (Compose COMPOSE_FILE Down) _ =? 0).
    + intros [= <- <- <-] _. congruence.
    + intros [= <- <- <-] _. congruence.
Qed.

(** X14. A run that does not announce the success of the deployment
    (a prerequisite is missing, a stage fails, or the health check fails
    and the stack is rolled back) removes no backup. *)
Theorem backups_survive_failed_run (w : World) (arg1 : option string) (st : State) :
  let r := script w arg1 st in
  said "Deployment completed successfully!" (output r) = false →
  dom (fs_backups (fs st)) ⊆ dom (fs_backups (fs (final r))).
Proof.
  intros r Hsaid. subst r.
  pose proof (prune_only_after_success w arg1 st Hsaid) as Hocc.
  pose proof (keeps_main w arg1 st) as Hk. revert Hocc. unfold script.
  destruct (main w arg1 st) as [[[[]|s|c] st'] out]; cbn [final fst snd] in *;
    intros Hocc; by apply Hk.
Qed.

Lemma backups_survive_failed_run_witness :
  dom seven_backups ⊆
  dom (fs_backups (fs (final (script (unhealthy [FRONTEND_URL]) None (start used_site))))).
Proof.
  apply (backups_survive_failed_run (unhealthy [FRONTEND_URL]) None (start used_site)).
  vm_compute. reflexivity.
Defined.

(** ** The build *)

Lemma main_split_build (w : World) (arg1 : option string) (st : State) :
  main w arg1 st = (until_build w arg1 ;; build_images w ;; after_build w) st.
Proof.
  symmetry. unfold until_build.
  do 3 (rewrite bind_assoc; apply bind_ext; intros _ ?).
  reflexivity.
Qed.

Lemma until_build_avoids_stack (w : World) (arg1 : option string) (a : Action) :
  avoids (Compose COMPOSE_FILE a) (until_build w arg1).
Proof. avoid_tac. Qed.

Lemma quiet_bind {A B} (m : Sh A) (k : A → Sh B) :
  quiet m → (∀ a, quiet (k a)) → quiet (bind m k).
Proof.
  intros Hm Hk st. unfold bind. specialize (Hm st).
  destruct (m st) as [[[a|s|c] st1] l1]; [|done..].
  specialize (Hk a st1). destruct (k a st1) as [[[b|s|c] st2] l2]; [|done..].
  rewrite List.filter_app. by rewrite Hm, Hk.
Qed.

Lemma quiet_exec (w : World) c : quiet (exec w c).
Proof. by intros st. Qed.
Lemma quiet_ret {A} (a : A) : quiet (ret a).
Proof. by intros st. Qed.
Lemma quiet_exit {A} x : quiet (@exit A x).
Proof. by intros st. Qed.
Lemma quiet_status (w : World) msg : quiet (print_status w msg).
Proof. by intros st. Qed.
Lemma quiet_date (w : World) fmt : quiet (date w fmt).
Proof. by intros st. Qed.
Lemma quiet_test_f path : quiet (test_f path).
Proof. by intros st. Qed.
Lemma quiet_command_v (w : World) tool : quiet (command_v w tool).
Proof. by intros st. Qed.
Lemma quiet_if {A} (b : bool) (m1 m2 : Sh A) :
  quiet m1 → quiet m2 → quiet (if b then m1 else m2).
Proof. by destruct b. Qed.
Lemma quiet_when b m : quiet m → quiet (when b m).
Proof. destruct b; [done|]. intros _. apply quiet_ret. Qed.
Lemma quiet_error_exit msg x : quiet (print_error msg ;; @exit unit x).
Proof. by intros st. Qed.
Lemma quiet_unless b m : quiet m → quiet (unless b m).
Proof. destruct b; [|done]. intros _. apply quiet_ret. Qed.

Create HintDb quiet.
#[export] Hint Resolve quiet_bind quiet_exec quiet_ret quiet_exit quiet_status
  quiet_date quiet_test_f quiet_command_v quiet_if quiet_when quiet_error_exit
  quiet_unless : quiet.

Lemma until_build_quiet (w : World) (arg1 : option string) : quiet (until_build w arg1).
Proof.
  unfold until_build, check_prerequisites, create_directories, backup_current,
    simple, cond.
  auto 60 with quiet.
Qed.

(** X10. When the build fails, the run ends with a non-zero exit code
    and has not touched the running stack: no [down] and no [up] has been
    run.  If the run got as far as the build, the build is its last
    command, its status is the exit code, and no error line is printed. *)
Theorem failed_build_leaves_stack (w : World) (arg1 : option string) (st : State) :
  let build := Compose COMPOSE_FILE Build in
  status w build (occurrences build (ops st)) ≠ 0 →
  let r := script w arg1 st in
  exit_code r ≠ 0 ∧
  occurrences (Compose COMPOSE_FILE Down) (ops (final r)) =
    occurrences (Compose COMPOSE_FILE Down) (ops st) ∧
  occurrences (Compose COMPOSE_FILE Up) (ops (final r)) =
    occurrences (Compose COMPOSE_FILE Up) (ops st) ∧
  (∀ st1 out1,
     until_build w arg1 st = (Ok tt, st1, out1) →
     exit_code r = status w build (occurrences build (ops st)) ∧
     ops (final r) = ops st1 ++ [build] ∧
     fs (final r) = fs st1 ∧
     List.filter is_error (output r) = []).
Proof.
  intros build Hfail r. subst r build.
  pose proof (exits_well_main w arg1 st) as Hw.
  destruct (script w arg1 st) as [[code stf] outf] eqn:Er.
  cbn [exit_code output final fst snd].
  unfold script in Er. rewrite main_split_build in Er, Hw.
  unfold bind at 1 in Er. unfold bind at 1 in Hw.
  pose proof (until_build_avoids_stack w arg1 Build st) as Hb.
  pose proof (until_build_avoids_stack w arg1 Down st) as Hd.
  pose proof (until_build_avoids_stack w arg1 Up st) as Hu.
  pose proof (until_build_quiet w arg1 st) as Hq.
  destruct (until_build w arg1 st) as [[[[]|?|?] st1] out1];
    cbn [fst snd] in Hb, Hd, Hu.
  - clear Hw. revert Er. destruct st1 as [f1 tr1 n1]. cbn [ops] in *.
    unfold bind at 1. unfold build_images. sh_eval.
    rewrite Hb. apply Z.eqb_neq in Hfail. rewrite Hfail. sh_eval.
    intros [= <- <- <-]. apply Z.eqb_neq in Hfail.
    split; [done|]. cbn [ops fs].
    rewrite !occurrences_snoc_ne by (by intros [=]).
    split; [done|]. split; [done|].
    intros st1' out1' [= <- <-]. repeat split.
    rewrite List.filter_app, Hq. reflexivity.
  - done.
  - injection Er as <- <- <-. destruct Hw as [Hc _]. by repeat split.
Qed.

Lemma failed_build_leaves_stack_witness :
  exit_code (script (failing (Compose COMPOSE_FILE Build) 0 17) None (start site)) = 17.
Proof.
  destruct (failed_build_leaves_stack (failing (Compose COMPOSE_FILE Build) 0 17)
              None (start site)) as (_ & _ & _ & H).
  - vm_compute. discriminate.
  - pose (st1 := (until_build (failing (Compose COMPOSE_FILE Build) 0 17) None
                    (start site)).1.2).
    assert (E : until_build (failing (Compose COMPOSE_FILE Build) 0 17) None (start site) =
                (Ok tt, st1,
                 (until_build (failing (Compose COMPOSE_FILE Build) 0 17) None
                    (start site)).2))
      by (vm_compute; reflexivity).
    destruct (H _ _ E) as [Hcode _]. rewrite Hcode. vm_compute. reflexivity.
Defined.

Lemma until_build_makes_backup (w : World) (arg1 : option string) (st st1 : State)
    (out1 : list Line) :
  let name := BACKUP_NAME (clock w (6 + dates st)) in
  until_build w arg1 st = (Ok tt, st1, out1) →
  is_Some (fs_backups (fs st1) !! name) ∧
  BACKUP_DIR ∈ fs_dirs (fs st1) ∧
  MkdirBackup name ∈ drop (length (ops st)) (ops st1).
Proof.
  destruct st as [[files dirs backups] tr n]. intros name. subst name.
  unfold BACKUP_NAME. cbn [dates ops Nat.add].
  unfold until_build, check_prerequisites, create_directories, backup_current.
  sh_eval.
  destruct (installed w "docker"); [|done].
  destruct (installed w "docker-compose"); [|done].
  destruct (bool_decide (is_Some (files !! ENV_FILE))) eqn:Ee; [|done].
  destruct (bool_decide (is_Some (files !! COMPOSE_FILE))); [|done].
  sh_eval.
  destruct (status w (MkdirP BACKUP_DIR) _ =? 0); sh_eval; [|done].
  destruct (status w (MkdirP (LOG_DIR +:+ "/nginx")) _ =? 0); sh_eval; [|done].
  destruct (status w (MkdirP (LOG_DIR +:+ "/main-api")) _ =? 0); sh_eval; [|done].
  destruct (status w (MkdirP (LOG_DIR +:+ "/scraper-api")) _ =? 0); sh_eval; [|done].
  destruct (status w (MkdirP "./ssl") _ =? 0); sh_eval; [|done].
  destruct (status w (MkdirBackup _) _ =? 0); sh_eval; [|done].
  set (name := "backup_" +:+ fmt_compact _).
  set (b0 := MkBackup _ None None).
  destruct (made_backup_lookup backups name b0) as (b & Hb & _).
  destruct (status w DockerPsQuiet _ =? 0); sh_eval.
  - destruct (status w (DockerPsAll _) _ =? 0); sh_eval; [|done].
    rewrite Ee. sh_eval.
    destruct (status w (CpEnv _) _ =? 0); sh_eval; [|done].
    intros [= <- <-]. cbn [fs fs_dirs fs_backups ops].
    split; [|split].
    + destruct (files !! ENV_FILE); cbn [fs_backups];
        rewrite ?lookup_alter_eq; rewrite Hb; by eexists.
    + destruct (files !! ENV_FILE); cbn [fs_dirs];
        apply elem_of_union; left; by apply elem_of_singleton.
    + rewrite <- !app_assoc, drop_app_length. in_list.
  - rewrite Ee. sh_eval.
    destruct (status w (CpEnv _) _ =? 0); sh_eval; [|done].
    intros [= <- <-]. cbn [fs fs_dirs fs_backups ops].
    split; [|split].
    + destruct (files !! ENV_FILE); cbn [fs_backups];
        rewrite ?lookup_alter_eq; rewrite Hb; by eexists.
    + destruct (files !! ENV_FILE); cbn [fs_dirs];
        apply elem_of_union; left; by apply elem_of_singleton.
    + rewrite <- !app_assoc, drop_app_length. in_list.
Qed.

Lemma keeps_after_build (w : World) : keeps (after_build w).
Proof.
  unfold after_build, verify_and_finish, rollback, report, deploy_services,
    health_check, cleanup, print_status, print_error, simple, cond.
  auto 60 with frame.
Qed.

(** X11. The build runs only after the prerequisite check, the
    directories and the backup have gone through: when a run has started
    a build, the backup of this run exists, its directory was made in
    this run, and the build is the command that follows. *)
Theorem build_only_after_backup (w : World) (arg1 : option string) (st : State) :
  let build := Compose COMPOSE_FILE Build in
  let name := BACKUP_NAME (clock w (6 + dates st)) in
  let r := script w arg1 st in
  occurrences build (ops (final r)) ≠ occurrences build (ops st) →
  ∃ st1 out1,
    until_build w arg1 st = (Ok tt, st1, out1) ∧
    is_Some (fs_backups (fs st1) !! name) ∧
    MkdirBackup name ∈ drop (length (ops st)) (ops st1) ∧
    (ops st1 ++ [build]) `prefix_of` ops (final r).
Proof.
  intros build name r. subst r build.
  destruct (script w arg1 st) as [[code stf] outf] eqn:Er.
  cbn [final fst snd]. unfold script in Er. rewrite main_split_build in Er.
  unfold bind at 1 in Er.
  pose proof (until_build_avoids_stack w arg1 Build st) as Hb.
  pose proof (until_build_makes_backup w arg1 st) as Hmk.
  destruct (until_build w arg1 st) as [[[[]|?|?] st1] out1]; cbn [fst snd] in Hb.
  - intros _. destruct (Hmk st1 out1 eq_refl) as (H1 & _ & H2).
    exists st1, out1. split; [done|]. split; [done|]. split; [done|].
    revert Er. destruct st1 as [f1 tr1 n1]. cbn [ops].
    unfold bind at 1. unfold build_images. sh_eval.
    destruct (status w (Compose COMPOSE_FILE Build) _ =? 0); sh_eval.
    + pose proof (keeps_after_build w
        (MkState f1 (tr1 ++ [Compose COMPOSE_FILE Build]) (S (S n1)))) as [Hp _].
      destruct (after_build w _) as [[[[]|?|?] st2] out2];
        intros [= <- <- <-]; exact Hp.
    + by intros [= <- <- <-].
  - injection Er as <- <- <-. congruence.
  - injection Er as <- <- <-. congruence.
Qed.

Lemma build_only_after_backup_witness :
  ∃ st1 out1,
    until_build calm None (start site) = (Ok tt, st1, out1) ∧
    is_Some (fs_backups (fs st1) !! BACKUP_NAME noon).
Proof.
  destruct (build_only_after_backup calm None (start site)) as (st1 & out1 & E & Hb & _).
  - vm_compute. discriminate.
  - exists st1, out1. split; [exact E|exact Hb].
Defined.

(** X12. With every prerequisite in place and every command succeeding
    (containers running, services healthy), a run exits with 0 after
    exactly these twenty-one commands, in this order, and prints
    twenty-six lines, none of them an error. *)
Theorem successful_run_trace (w : World) (arg1 : option string) (st : State) :
  prerequisites_met w st →
  (∀ c k, status w c k = 0) →
  let name := BACKUP_NAME (clock w (6 + dates st)) in
  let r := script w arg1 st in
  exit_code r = 0 ∧
  ops (final r) = ops st ++ SUCCESSFUL_RUN name ∧
  List.filter is_error (output r) = [] ∧
  length (output r) = 26%nat.
Proof.
  destruct st as [[files dirs backups] tr n].
  intros (Hd & Hc & He & Hy) Hall name r. subst r name.
  cbn [fs fs_files dates ops Nat.add] in *.
  assert (He' : bool_decide (is_Some (files !! ENV_FILE)) = true)
    by (by apply bool_decide_eq_true_2).
  assert (Hy' : bool_decide (is_Some (files !! COMPOSE_FILE)) = true)
    by (by apply bool_decide_eq_true_2).
  destruct He as [content He].
  destruct (script w arg1 _) as [[code stf] outf] eqn:Er.
  cbn [exit_code final output fst snd]. revert Er.
  unfold script, main, check_prerequisites, create_directories, backup_current,
    build_images, deploy_services, health_check, cleanup, BACKUP_NAME, SUCCESSFUL_RUN.
  sh_eval. rewrite Hd, Hc, He', Hy'. sh_eval.
  repeat (rewrite ?Hall; progress change (0 =? 0) with true; sh_eval;
          rewrite ?He', ?He).
  rewrite bool_decide_eq_true_2
    by (rewrite !elem_of_union, elem_of_singleton; by left).
  sh_eval.
  repeat (rewrite ?Hall; progress change (0 =? 0) with true; sh_eval).
  intros [= <- <- <-]. cbn [ops]. rewrite <- !app_assoc. by repeat split.
Qed.

Lemma successful_run_trace_witness :
  exit_code (script calm (Some "production") (start used_site)) = 0.
Proof.
  apply (successful_run_trace calm (Some "production") (start used_site)).
  - repeat split; try reflexivity; eexists; reflexivity.
  - intros c k. reflexivity.
Defined.

(** X15. Without a backup directory, [cleanup] only prunes the images: it
    runs no [cd] and no prune pipeline, leaves the file system alone, and
    ends with the status of [docker image prune] when that fails. *)
Theorem cleanup_without_backup_dir (w : World) (st : State) :
  BACKUP_DIR ∉ fs_dirs (fs st) →
  ∃ st' out,
    cleanup w st = (outcome w st [ImagePrune], st', out) ∧
    ops st' = ops st ++ [ImagePrune] ∧
    fs st' = fs st.
Proof.
  destruct st as [[files dirs backups] tr n]. cbn [fs fs_dirs ops]. intros Hd.
  unfold cleanup, outcome, succeeds. simpl List.find. cbn [ops]. sh_eval.
  destruct (status w ImagePrune _ =? 0) eqn:E; sh_eval.
  - rewrite bool_decide_eq_false_2 by done. sh_eval. by do 2 eexists.
  - by do 2 eexists.
Qed.

Lemma cleanup_without_backup_dir_witness :
  fs (cleanup calm (start site)).1.2 = site.
Proof.
  destruct (cleanup_without_backup_dir calm (start site)) as (st' & out & E & _ & Hfs).
  - vm_compute. intros H. discriminate H.
  - rewrite E. exact Hfs.
Defined.

(** ** The asset names of the frontend build *)

Lemma lower_app (a b : string) : lower (a +:+ b) = lower a +:+ lower b.
Proof.
  induction a as [|c a IH]; [done|].
  rewrite append_String. cbn [lower]. by rewrite IH, append_String.
Qed.

Lemma ends_with_refl (suf : string) : ends_with suf suf = true.
Proof. destruct suf; simpl; [done|]. by rewrite Ascii.eqb_refl, String.eqb_refl. Qed.

Lemma ends_with_app (p suf : string) : ends_with suf (p +:+ suf) = true.
Proof.
  induction p as [|c p IH]; [apply ends_with_refl|].
  rewrite append_String. cbn [ends_with]. rewrite IH. apply orb_true_r.
Qed.

Lemma last_char_app (p t : string) :
  t ≠ EmptyString → last_char (p +:+ t) = last_char t.
Proof.
  intros Ht. induction p as [|c p IH]; [done|].
  rewrite append_String. cbn [last_char]. destruct (p +:+ t) eqn:E; [|done].
  destruct p; [by subst|done].
Qed.

Lemma ends_with_last_char (suf s : string) :
  suf ≠ EmptyString → ends_with suf s = true → last_char s = last_char suf.
Proof.
  intros Hs. induction s as [|c s IH]; cbn [ends_with].
  - rewrite orb_false_r. intros E%String.eqb_eq. congruence.
  - intros [E%String.eqb_eq|E]%orb_true_iff; [by subst|].
    destruct s as [|c' s]; [|by apply IH].
    simpl in E. rewrite orb_false_r in E. destruct suf; [done|discriminate E].
Qed.

Lemma split_dot_last (base e : string) :
  split_dot e = [e] →
  ∃ p ps, split_dot (base +:+ String "." e) = p :: ps ++ [e].
Proof.
  intros He. induction base as [|c base (p & ps & IH)].
  - exists EmptyString, []. rewrite append_empty. cbn [split_dot]. by rewrite Ascii.eqb_refl, He.
  - rewrite append_String. cbn [split_dot]. rewrite IH. destruct (Ascii.eqb c ".").
    + by exists EmptyString, (p :: ps).
    + by exists (String c p), ps.
Qed.

Lemma ext_type (base e : string) :
  split_dot e = [e] →
  List.last (split_dot (base +:+ String "." e)) EmptyString = e.
Proof.
  intros He. destruct (split_dot_last base e He) as (p & ps & ->).
  change (p :: ps ++ [e]) with ((p :: ps) ++ [e]). apply List.last_last.
Qed.

Lemma lower_ascii_inv (c l : ascii) :
  lower_ascii c = l → (97 <= nat_of_ascii l <= 122)%nat →
  c = l ∨ c = ascii_of_nat (nat_of_ascii l - 32).
Proof.
  unfold lower_ascii. intros H Hl.
  destruct ((65 <=? nat_of_ascii c)%nat && (nat_of_ascii c <=? 90)%nat) eqn:E; [|by left].
  right. apply andb_true_iff in E as [E1%Nat.leb_le E2%Nat.leb_le].
  subst l. rewrite nat_ascii_embedding by lia.
  replace (nat_of_ascii c + 32 - 32)%nat with (nat_of_ascii c) by lia.
  by rewrite ascii_nat_embedding.
Qed.

(** X18. An asset whose name ends in a dot and an image extension, in any
    letter case, goes to [assets/images], whatever comes before the
    dot. *)
Theorem image_extension_any_case (base s e : string) :
  e ∈ IMAGE_EXTENSIONS → lower s = e →
  assetFileNames (base +:+ String "." s) = IMAGES.
Proof.
  intros He Hs. unfold assetFileNames.
  assert (H : test_extension IMAGE_EXTENSIONS (base +:+ String "." s) = true).
  { apply existsb_exists. exists e. split; [by apply list_elem_of_In|].
    rewrite lower_app. cbn [lower]. rewrite Hs.
    change (lower_ascii ".") with "."%char. apply ends_with_app. }
  by rewrite H.
Qed.

Lemma no_s_extension (exts : list string) (name : string) :
  last_char (lower name) = Some "s"%char →
  Forall (λ e, last_char (String "." e) ≠ Some "s"%char) exts →
  test_extension exts name = false.
Proof.
  intros Hn Hall. unfold test_extension.
  apply not_true_iff_false. intros (e & He & Hend)%existsb_exists.
  apply list_elem_of_In in He. rewrite Forall_forall in Hall.
  apply (Hall e He). rewrite <- Hn. symmetry.
  by apply ends_with_last_char.
Qed.

(** X19. The test for style sheets, unlike those for images and fonts,
    is sensitive to case: of the names that end in a dot and [css] in
    some letter case, only those in lower case go to [assets/css]; the
    others go to [assets]. *)
Theorem css_extension_is_case_sensitive (base s : string) :
  lower s = "css" →
  assetFileNames (base +:+ String "." s) = if String.eqb s "css" then CSS else OTHER.
Proof.
  intros Hs.
  assert (Hlast : last_char (lower (base +:+ String "." s)) = Some "s"%char).
  { rewrite lower_app. cbn [lower]. rewrite Hs. by rewrite last_char_app. }
  assert (Hsplit : split_dot s = [s]).
  { destruct s as [|c1 [|c2 [|c3 [|c4 s]]]]; try discriminate Hs.
    injection Hs as H1 H2 H3.
    apply lower_ascii_inv in H1 as [->| ->]; [| |vm_compute; lia];
    apply lower_ascii_inv in H2 as [->| ->]; try (vm_compute; lia);
    apply lower_ascii_inv in H3 as [->| ->]; try (vm_compute; lia);
    reflexivity. }
  unfold assetFileNames.
  rewrite (no_s_extension IMAGE_EXTENSIONS) by (done || (repeat constructor; done)).
  rewrite (no_s_extension FONT_EXTENSIONS) by (done || (repeat constructor; done)).
  by rewrite ext_type.
Qed.

Lemma image_extension_any_case_witness :
  assetFileNames "logo.PnG" = IMAGES.
Proof.
  apply (image_extension_any_case "logo" "PnG" "png"); [|reflexivity].
  apply list_elem_of_here.
Defined.

Lemma css_extension_is_case_sensitive_witness :
  assetFileNames "main.css" = CSS ∧ assetFileNames "main.CSS" = OTHER.
Proof.
  split.
  - apply (css_extension_is_case_sensitive "main" "css"). reflexivity.
  - apply (css_extension_is_case_sensitive "main" "CSS"). reflexivity.
Defined.
